(** * zombisave: the backup-rotation engine of [zombisave.py]

    A shallow embedding of the script's save discovery, backup numbering,
    eviction and backup loop, with the properties of its specification
    settled against it.

    The script is a straight-line Python program over the file system.  It is
    embedded as functions in a state-and-exception monad: the state is the part
    of the file system the script touches together with what it printed, an
    exception is a Python exception that propagates ([sys.exit] raises
    [SystemExit]).  Python's unbounded [while] loops take a fuel argument and
    answer [OutOfFuel] when it runs out.

    Conventions of the model:
    - time stamps ([os.path.getmtime], a float number of seconds) are integers
      [Z]; the script only compares them and tests them against [0];
    - file names are ASCII strings;
    - the backup folder [BACKUP_PATH] is a list of entries in the order
      [os.listdir] yields them; every access goes through the entry's name, as
      the script builds a path for every call. *)

From Stdlib Require Import ZArith List Bool Lia Ascii String.
From Stdlib Require Import DecimalString DecimalZ FinFun.
Import ListNotations.

Local Open Scope string_scope.
Local Open Scope list_scope.
Local Open Scope Z_scope.

Infix "+++" := String.append (right associativity, at level 60).

(* ================================================================= *)
(** ** Python strings *)

(** [sub in s]: [sub] occurs in [s] as a contiguous substring. *)
Fixpoint py_in (sub s : string) : bool :=
  String.prefix sub s ||
  match s with
  | EmptyString => false
  | String _ s' => py_in sub s'
  end.

(** [s.startswith(p)]. *)
Definition startswith (p s : string) : bool := String.prefix p s.

(** Split at the last occurrence of the character [sep], if there is one. *)
Fixpoint rsplit_last (sep : ascii) (s : string) : option (string * string) :=
  match s with
  | EmptyString => None
  | String c s' =>
      match rsplit_last sep s' with
      | Some (before, after) => Some (String c before, after)
      | None => if Ascii.eqb c sep then Some (EmptyString, s') else None
      end
  end.

(** [s.rpartition(sep)] for a one-character separator: [(before, sep, after)],
    and [("", "", s)] when [sep] does not occur. *)
Definition rpartition (sep : ascii) (s : string) : string * string * string :=
  match rsplit_last sep s with
  | Some (before, after) => (before, String sep EmptyString, after)
  | None => (EmptyString, EmptyString, s)
  end.

Fixpoint drop (n : nat) (s : string) : string :=
  match n, s with
  | O, _ => s
  | S n', String _ s' => drop n' s'
  | S _, EmptyString => EmptyString
  end.

(** [s.removeprefix(p)]. *)
Definition removeprefix (p s : string) : string :=
  if String.prefix p s then drop (String.length p) s else s.

Definition endswith (x s : string) : bool :=
  (String.length x <=? String.length s)%nat &&
  String.eqb (drop (String.length s - String.length x) s) x.

(** [s.removesuffix(x)]. *)
Definition removesuffix (x s : string) : string :=
  if negb (String.eqb x EmptyString) && endswith x s
  then String.substring 0 (String.length s - String.length x) s
  else s.

(** White space as [int()] skips it at both ends of its argument. *)
Definition is_space (c : ascii) : bool :=
  let n := nat_of_ascii c in
  ((9 <=? n) && (n <=? 13) || (28 <=? n) && (n <=? 32))%nat.

Fixpoint lstrip (l : list ascii) : list ascii :=
  match l with
  | c :: l' => if is_space c then lstrip l' else l
  | [] => []
  end.

Definition strip (l : list ascii) : list ascii :=
  rev (lstrip (rev (lstrip l))).

Definition digit_of (c : ascii) : option Z :=
  let n := nat_of_ascii c in
  if ((48 <=? n) && (n <=? 57))%nat then Some (Z.of_nat n - 48) else None.

Fixpoint digits_value (acc : Z) (l : list ascii) : option Z :=
  match l with
  | [] => Some acc
  | c :: l' =>
      match digit_of c with
      | Some d => digits_value (10 * acc + d) l'
      | None => None
      end
  end.

Definition unsigned_value (l : list ascii) : option Z :=
  match l with
  | [] => None
  | _ => digits_value 0 l
  end.

(** [int(s)] on an ASCII string without underscores: surrounding white space,
    an optional sign, then one or more decimal digits; [None] stands for
    [ValueError]. *)
Definition py_int (s : string) : option Z :=
  match strip (list_ascii_of_string s) with
  | "+"%char :: l => unsigned_value l
  | "-"%char :: l => option_map Z.opp (unsigned_value l)
  | l => unsigned_value l
  end.

(** [str(n)] for an integer. *)
Definition py_str (n : Z) : string := NilZero.string_of_int (Z.to_int n).

(* ================================================================= *)
(** ** Exceptions and the monad of the script *)

Inductive exn : Type :=
| PermissionError
| FileNotFoundError
| FileExistsError
| NotADirectoryError
| DirectoryNotEmpty      (* OSError, errno ENOTEMPTY *)
| ValueError
| SystemExit (code : Z).

Definition exn_eqb (a b : exn) : bool :=
  match a, b with
  | PermissionError, PermissionError
  | FileNotFoundError, FileNotFoundError
  | FileExistsError, FileExistsError
  | NotADirectoryError, NotADirectoryError
  | DirectoryNotEmpty, DirectoryNotEmpty
  | ValueError, ValueError => true
  | SystemExit c, SystemExit d => (c =? d)%Z
  | _, _ => false
  end.

Inductive outcome (A : Type) : Type :=
| Done (a : A)
| Raised (e : exn)
| OutOfFuel.
Arguments Done {A} a.
Arguments Raised {A} e.
Arguments OutOfFuel {A}.

Definition M (St A : Type) : Type := St -> outcome A * St.

Definition ret {St A} (a : A) : M St A := fun s => (Done a, s).

Definition bind {St A B} (m : M St A) (k : A -> M St B) : M St B :=
  fun s =>
    match m s with
    | (Done a, s') => k a s'
    | (Raised e, s') => (Raised e, s')
    | (OutOfFuel, s') => (OutOfFuel, s')
    end.

Definition raise {St A} (e : exn) : M St A := fun s => (Raised e, s).

Definition out_of_fuel {St A} : M St A := fun s => (OutOfFuel, s).

(** [try: m  except e: handler]. *)
Definition try_except {St A} (m : M St A) (e : exn) (handler : M St A) : M St A :=
  fun s =>
    match m s with
    | (Raised e', s') => if exn_eqb e e' then handler s' else (Raised e', s')
    | r => r
    end.

Notation "x <- m ;; k" := (bind m (fun x => k))
  (at level 61, m at next level, right associativity).
Notation "' pat <- m ;; k" := (bind m (fun x => match x with pat => k end))
  (at level 61, pat pattern, m at next level, right associativity).
Notation "m ;;; k" := (bind m (fun _ => k))
  (at level 61, right associativity).

(** [for x in xs: acc = body(x, acc)]. *)
Fixpoint for_each {St A B} (xs : list A) (body : A -> B -> M St B) (acc : B)
  : M St B :=
  match xs with
  | [] => ret acc
  | x :: xs' => acc' <- body x acc ;; for_each xs' body acc'
  end.

(* ================================================================= *)
(** ** Configuration (the script's constants after argument parsing) *)

(** The values of [zipfile]'s method constants. *)
Definition ZIP_STORED : Z := 0.
Definition ZIP_DEFLATED : Z := 8.
Definition ZIP_BZIP2 : Z := 12.
Definition ZIP_LZMA : Z := 14.

Record config : Type := {
  FOLDER_NAME : string;      (* backup folder name, [""] for the save directory *)
  METHOD : option Z;         (* [METHODS[args.compression]]; [None] for "NONE" *)
  LEVEL : Z;
  INTERVAL : Z;              (* minutes *)
  LIMIT : Z                  (* backups kept per save, [0] for no limit *)
}.

(** Python's truth value of [METHOD]: [None] and [0] are false. *)
Definition truthy_method (m : option Z) : bool :=
  match m with
  | None => false
  | Some z => negb (z =? 0)
  end.

Definition SUFFIX_SEPARATOR : ascii := "_"%char.
Definition SUFFIX_BEGIN : string := "bak".

(** Output: the chunks of text the script wrote to standard output. *)
Definition output : Type := list string.

(* ================================================================= *)
(** ** Choosing the save to back up (lines 76-109) *)

(** What [os.listdir] answers for a directory. *)
Inductive listing (A : Type) : Type :=
| Listed (xs : list A)
| Denied                  (* PermissionError *)
| Missing                 (* FileNotFoundError *)
| NotDir.                 (* NotADirectoryError *)
Arguments Listed {A} xs.
Arguments Denied {A}.
Arguments Missing {A}.
Arguments NotDir {A}.

(** A child of a playstyle directory: its name and modification time. *)
Definition child : Type := (string * Z)%type.

(** An entry of the save root: its name and what listing it answers. *)
Definition playstyle_entry : Type := (string * listing child)%type.

Definition save_root : Type := listing playstyle_entry.

Definition print {St} (put : string -> St -> St) (line : string) : M St unit :=
  fun s => (Done tt, put line s).

Definition put_line (line : string) (out : output) : output := out ++ [line].

Definition os_listdir {A} (d : listing A) : M output (list A) :=
  match d with
  | Listed xs => ret xs
  | Denied => raise PermissionError
  | Missing => raise FileNotFoundError
  | NotDir => raise NotADirectoryError
  end.

(** The variables [latest_playstyle], [latest_save], [latest_modified]. *)
Record latest : Type := {
  latest_playstyle : string;
  latest_save : string;
  latest_modified : Z
}.

(** The body of the inner [for save in os.listdir(...)] loop. *)
Definition consider_save (cfg : config) (playstyle : string) (c : child)
    (best : latest) : M output latest :=
  let '(save, modified_time) := c in
  if String.eqb save (FOLDER_NAME cfg) then ret best
  else if modified_time >? latest_modified best
       then ret {| latest_playstyle := playstyle;
                   latest_save := save;
                   latest_modified := modified_time |}
       else ret best.

(** The body of the outer [for playstyle in playstyles] loop. *)
Definition consider_playstyle (cfg : config) (p : playstyle_entry)
    (best : latest) : M output latest :=
  let '(playstyle, dir) := p in
  saves <- os_listdir dir ;;
  for_each saves (consider_save cfg playstyle) best.

Definition NO_SAVES : string := "ERROR: No saves found!".
Definition NO_ACCESS : string :=
  "ERROR: Do not have permissions to access save directory!".

Definition locate_save (cfg : config) (root : save_root) : M output latest :=
  playstyles <- try_except (os_listdir root) PermissionError
                  (print put_line NO_ACCESS ;;; raise (SystemExit 1)) ;;
  match playstyles with
  | [] => print put_line NO_SAVES ;;; raise (SystemExit 1)
  | first :: _ =>
      best <- for_each playstyles (consider_playstyle cfg)
                {| latest_playstyle := fst first;
                   latest_save := "";
                   latest_modified := 0 |} ;;
      if String.eqb (latest_save best) "" then
        print put_line NO_SAVES ;;; raise (SystemExit 1)
      else ret best
  end.

(* ================================================================= *)
(** ** The backup folder and the save, as the loop sees them *)

(** A file, or a directory with its content. *)
#[warnings="-register-all"]
Inductive tree : Type :=
| File
| Dir (children : list (string * tree)).

(** An entry of the backup folder.  [locked] says that removing the entry is
    refused ([os.remove] and [os.rmdir] raise [PermissionError]). *)
Record entry : Type := {
  e_name : string;
  e_mtime : Z;
  e_node : tree;
  e_locked : bool
}.

Record world : Type := {
  folder : option (list entry);  (* [BACKUP_PATH]; [None] when it does not exist *)
  folder_readonly : bool;        (* creating an entry in the folder is refused *)
  folder_pinned : bool;          (* removing the folder itself is refused *)
  save : option (Z * tree);      (* the save: modification time and content *)
  clock : Z;                     (* [time.time()], in seconds *)
  stdout : output
}.

Definition set_folder (f : option (list entry)) (w : world) : world :=
  {| folder := f; folder_readonly := folder_readonly w;
     folder_pinned := folder_pinned w; save := save w;
     clock := clock w; stdout := stdout w |}.

Definition write_stdout (line : string) (w : world) : world :=
  {| folder := folder w; folder_readonly := folder_readonly w;
     folder_pinned := folder_pinned w; save := save w;
     clock := clock w; stdout := stdout w ++ [line] |}.

Definition lookup (name : string) (es : list entry) : option entry :=
  find (fun e => String.eqb (e_name e) name) es.

Definition unlink (name : string) (es : list entry) : list entry :=
  filter (fun e => negb (String.eqb (e_name e) name)) es.

Definition is_file (t : tree) : bool :=
  match t with File => true | Dir _ => false end.

(** [os.listdir(BACKUP_PATH)]. *)
Definition listdir_backups : M world (list string) :=
  fun w =>
    match folder w with
    | Some es => (Done (map e_name es), w)
    | None => (Raised FileNotFoundError, w)
    end.

(** [os.path.getmtime(pathlib.Path(BACKUP_PATH, name))]. *)
Definition getmtime_backup (name : string) : M world Z :=
  fun w =>
    match folder w with
    | Some es =>
        match lookup name es with
        | Some e => (Done (e_mtime e), w)
        | None => (Raised FileNotFoundError, w)
        end
    | None => (Raised FileNotFoundError, w)
    end.

(** [os.path.isfile(pathlib.Path(BACKUP_PATH, name))]: false for a directory
    and for a name that does not exist.  [pathlib.Path(BACKUP_PATH, "")] is
    [BACKUP_PATH] itself, a directory. *)
Definition isfile_backup (name : string) : M world bool :=
  fun w =>
    match folder w with
    | Some es =>
        match lookup name es with
        | Some e => (Done (is_file (e_node e)), w)
        | None => (Done false, w)
        end
    | None => (Done false, w)
    end.

(** [os.remove(pathlib.Path(BACKUP_PATH, name))], called on a regular file. *)
Definition remove_backup (name : string) : M world unit :=
  fun w =>
    match folder w with
    | Some es =>
        match lookup name es with
        | Some e =>
            if e_locked e then (Raised PermissionError, w)
            else (Done tt, set_folder (Some (unlink name es)) w)
        | None => (Raised FileNotFoundError, w)
        end
    | None => (Raised FileNotFoundError, w)
    end.

(** [os.rmdir(pathlib.Path(BACKUP_PATH, name))]: removes an empty directory
    only.  With the empty name the path is the backup folder itself. *)
Definition rmdir_backup (name : string) : M world unit :=
  fun w =>
    match folder w with
    | Some es =>
        if String.eqb name "" then
          if folder_pinned w then (Raised PermissionError, w)
          else match es with
               | [] => (Done tt, set_folder None w)
               | _ :: _ => (Raised DirectoryNotEmpty, w)
               end
        else
          match lookup name es with
          | Some e =>
              if e_locked e then (Raised PermissionError, w)
              else match e_node e with
                   | File => (Raised NotADirectoryError, w)
                   | Dir [] => (Done tt, set_folder (Some (unlink name es)) w)
                   | Dir (_ :: _) => (Raised DirectoryNotEmpty, w)
                   end
          | None => (Raised FileNotFoundError, w)
          end
    | None => (Raised FileNotFoundError, w)
    end.

(** [os.path.getmtime(pathlib.Path(SAVE_DIR, latest_save))]. *)
Definition getmtime_save : M world Z :=
  fun w =>
    match save w with
    | Some (t, _) => (Done t, w)
    | None => (Raised FileNotFoundError, w)
    end.

Definition say (line : string) : M world unit := print write_stdout line.

(** The loop's variables. *)
Record rotation : Type := {
  backup_num : Z;     (* current backup number *)
  total_num : Z;      (* total number of backups *)
  last_mod : Z;       (* modification time of last backup *)
  current_mod : Z     (* modification time of save currently *)
}.

(* ================================================================= *)
(** ** Initial backup number and count (lines 123-140) *)

(** Does the entry [backup] count as a backup of [save]?  The script's test is
    [latest_save in backup]. *)
Definition belongs (save backup : string) : bool := py_in save backup.

(** The body of [for backup in os.listdir(BACKUP_PATH)] at lines 132-140;
    the accumulator is [(backup_num, total_num)].  [suffix_extension] is still
    [".zip"] here, whatever the method. *)
Definition count_backup (save backup : string) (acc : Z * Z) : M world (Z * Z) :=
  let '(backup_num, total_num) := acc in
  if belongs save backup then
    let total_num := total_num + 1 in
    let '(_, _, after) := rpartition SUFFIX_SEPARATOR backup in
    let after := removesuffix ".zip" (removeprefix SUFFIX_BEGIN after) in
    match py_int after with
    | Some n =>
        if n >=? backup_num then ret (n + 1, total_num)
        else ret (backup_num, total_num)
    | None => raise ValueError
    end
  else ret (backup_num, total_num).

Definition initial_scan (save : string) : M world (Z * Z) :=
  backups <- listdir_backups ;;
  for_each backups (count_backup save) (0, 0).

Definition initial_rotation (save : string) : M world rotation :=
  '(backup_num, total_num) <- initial_scan save ;;
  ret {| backup_num := backup_num; total_num := total_num;
         last_mod := 0; current_mod := 1 |}.

(* ================================================================= *)
(** ** Eviction (lines 148-171) *)

(** The body of [for backup in os.listdir(BACKUP_PATH)] at lines 154-159;
    the accumulator is [(earliest_backup, earliest_mod)]. *)
Definition consider_backup (save backup : string) (acc : string * Z)
  : M world (string * Z) :=
  let '(earliest_backup, earliest_mod) := acc in
  if belongs save backup then
    modified_time <- getmtime_backup backup ;;
    if (earliest_mod =? 0) || (modified_time <? earliest_mod)
    then ret (backup, modified_time)
    else ret (earliest_backup, earliest_mod)
  else ret (earliest_backup, earliest_mod).

Definition find_earliest (save : string) : M world (string * Z) :=
  backups <- listdir_backups ;;
  for_each backups (consider_backup save) ("", 0).

Definition LIMIT_REACHED (earliest_backup : string) : string :=
  "Backup limit reached, deleting " +++ earliest_backup.
Definition DELETE_DENIED : string :=
  "ERROR: Do not have permissions to delete backup".

(** Lines 162-169: the [try] block that deletes the chosen entry. *)
Definition delete_backup (earliest_backup : string) : M world unit :=
  try_except
    (isfile <- isfile_backup earliest_backup ;;
     if isfile then remove_backup earliest_backup
     else rmdir_backup earliest_backup)
    PermissionError
    (say DELETE_DENIED).

(** One iteration of [while total_num >= LIMIT]; answers the new [total_num]. *)
Definition evict_once (save : string) (total_num : Z) : M world Z :=
  '(earliest_backup, _) <- find_earliest save ;;
  say (LIMIT_REACHED earliest_backup) ;;;
  delete_backup earliest_backup ;;;
  ret (total_num - 1).

(** [while total_num >= LIMIT: ...]; one unit of fuel per iteration. *)
Fixpoint evict_loop (fuel : nat) (limit : Z) (save : string) (total_num : Z)
  : M world Z :=
  if total_num >=? limit then
    match fuel with
    | O => out_of_fuel
    | S fuel' =>
        total_num' <- evict_once save total_num ;;
        evict_loop fuel' limit save total_num'
    end
  else ret total_num.

(** [if LIMIT: while ...]. *)
Definition evict (fuel : nat) (cfg : config) (save : string) (total_num : Z)
  : M world Z :=
  if LIMIT cfg =? 0 then ret total_num
  else evict_loop fuel (LIMIT cfg) save total_num.

(* ================================================================= *)
(** ** Naming and producing one backup (lines 173-223) *)

Definition QUOTE : string := String (ascii_of_nat 34) EmptyString.

(** [suffix_extension] inside the loop: [".zip"], or [""] when [not METHOD]. *)
Definition suffix_extension (cfg : config) : string :=
  if truthy_method (METHOD cfg) then ".zip" else "".

(** [f"{latest_save}{SUFFIX_SEPARATOR}{SUFFIX_BEGIN}{backup_num}{suffix_extension}"]. *)
Definition backup_name (save : string) (backup_num : Z) (ext : string) : string :=
  save +++ String SUFFIX_SEPARATOR EmptyString +++ SUFFIX_BEGIN
       +++ py_str backup_num +++ ext.

(** [while os.path.isfile(...): backup_num += 1] (lines 177-182); answers the
    number the loop stops at. *)
Fixpoint free_number (fuel : nat) (save ext : string) (backup_num : Z)
  : M world Z :=
  isfile <- isfile_backup (backup_name save backup_num ext) ;;
  if isfile then
    match fuel with
    | O => out_of_fuel
    | S fuel' => free_number fuel' save ext (backup_num + 1)
    end
  else ret backup_num.

Definition CREATING (cfg : config) (playstyle name : string) : string :=
  if String.eqb (FOLDER_NAME cfg) "" then
    "Creating backup " +++ QUOTE +++ playstyle +++ "/" +++ name +++ QUOTE +++ " ... "
  else
    "Creating backup " +++ QUOTE +++ playstyle +++ "/" +++ FOLDER_NAME cfg
      +++ "/" +++ name +++ QUOTE +++ " ... ".

Definition new_entry (name : string) (t : Z) (node : tree) : entry :=
  {| e_name := name; e_mtime := t; e_node := node; e_locked := false |}.

(** [zip.ZipFile(path, mode='x', ...)] and the writes of lines 191-211: the
    archive is created exclusively and is a regular file stamped with the time
    of writing.  Its content is not modelled, and reading the save does not
    fail here ([os.walk] skips what it cannot list). *)
Definition write_zip (name : string) : M world unit :=
  fun w =>
    match folder w with
    | Some es =>
        match lookup name es with
        | Some _ => (Raised FileExistsError, w)
        | None =>
            if folder_readonly w then (Raised PermissionError, w)
            else (Done tt,
                  set_folder (Some (es ++ [new_entry name (clock w) File])) w)
        end
    | None => (Raised FileNotFoundError, w)
    end.

(** [shutil.copytree(save, path)]: lists the source, creates the destination
    with [os.makedirs] (missing parents included, an existing destination is
    an error), copies the content and, last, the source's time stamps. *)
Definition copytree (name : string) : M world unit :=
  fun w =>
    match save w with
    | None => (Raised FileNotFoundError, w)
    | Some (_, File) => (Raised NotADirectoryError, w)
    | Some (t, Dir content) =>
        let es := match folder w with Some es => es | None => [] end in
        match lookup name es with
        | Some _ => (Raised FileExistsError, w)
        | None =>
            if folder_readonly w then (Raised PermissionError, w)
            else (Done tt,
                  set_folder (Some (es ++ [new_entry name t (Dir content)])) w)
        end
    end.

Definition COPY_DENIED : string :=
  "ERROR: Do not have permissions to copy save directory!".

(** Lines 189-218. *)
Definition archive (cfg : config) (name : string) : M world unit :=
  if truthy_method (METHOD cfg) then write_zip name
  else try_except (copytree name) PermissionError
         (say COPY_DENIED ;;; raise (SystemExit 1)).

(** One pass over lines 148-223: evict, name, archive, update the variables. *)
Definition backup_cycle (fuel : nat) (cfg : config) (target : latest)
    (st : rotation) : M world rotation :=
  let save := latest_save target in
  total_num <- evict fuel cfg save (total_num st) ;;
  let ext := suffix_extension cfg in
  backup_num <- free_number fuel save ext (backup_num st) ;;
  let name := backup_name save backup_num ext in
  say (CREATING cfg (latest_playstyle target) name) ;;;
  archive cfg name ;;;
  say "DONE" ;;;
  last_mod <- getmtime_save ;;
  ret {| backup_num := backup_num + 1;
         total_num := total_num + 1;
         last_mod := last_mod;
         current_mod := current_mod st |}.

(* ================================================================= *)
(** ** Sleeping, re-checking, and the loop (lines 142-241) *)

(** What happens while the script sleeps: it wakes up in a world the
    environment may have changed, or the user interrupts it. *)
Inductive sleep_event : Type :=
| Wake (outside : world -> world)
| Interrupt.

(** The world after a sleep: the environment's files, the script's output,
    the clock advanced by the interval. *)
Definition after_sleep (cfg : config) (outside : world -> world) (w : world)
  : world :=
  let w' := outside w in
  {| folder := folder w'; folder_readonly := folder_readonly w';
     folder_pinned := folder_pinned w'; save := save w';
     clock := clock w + INTERVAL cfg * 60; stdout := stdout w |}.

(** The wake-up time is printed in UTC here; the script prints local time. *)
Definition SLEEPING (cfg : config) (now : Z) : string :=
  let wake := now + INTERVAL cfg * 60 in
  "Sleeping until " +++ py_str ((wake / 3600) mod 24) +++ ":"
    +++ py_str ((wake / 60) mod 60) +++ ", Ctrl+C to exit".

Definition announce_sleep (cfg : config) : M world unit :=
  fun w => say (SLEEPING cfg (clock w)) w.

(** [time.sleep(INTERVAL * 60)] under [except KeyboardInterrupt]. *)
Definition sleep (cfg : config) (ev : sleep_event) : M world unit :=
  if INTERVAL cfg <? 0 then raise ValueError
  else match ev with
       | Wake outside => fun w => (Done tt, after_sleep cfg outside w)
       | Interrupt => say "Exiting" ;;; raise (SystemExit 0)
       end.

Definition SAVE_GONE : string := "ERROR: Save renamed or deleted during sleep!".
Definition UNCHANGED : string :=
  "Save hasn't been modified since last backup, exiting.".

(** Lines 234-239. *)
Definition recheck : M world Z :=
  try_except getmtime_save FileNotFoundError
    (say SAVE_GONE ;;; raise (SystemExit 1)).

(** [while current_mod != last_mod: ...]; the list of sleep events bounds the
    number of iterations. *)
Fixpoint backup_loop (fuel : nat) (cfg : config) (target : latest)
    (events : list sleep_event) (st : rotation) : M world rotation :=
  if current_mod st =? last_mod st then ret st
  else
    st <- backup_cycle fuel cfg target st ;;
    announce_sleep cfg ;;;
    match events with
    | [] => out_of_fuel
    | ev :: events' =>
        sleep cfg ev ;;;
        current_mod <- recheck ;;
        backup_loop fuel cfg target events'
          {| backup_num := backup_num st; total_num := total_num st;
             last_mod := last_mod st; current_mod := current_mod |}
    end.

Definition MKDIR_DENIED : string :=
  "ERROR: Do not have permissions to create backup directory!".

(** [os.mkdir(BACKUP_PATH)] under its two handlers (lines 113-121). *)
Definition ensure_folder : M world unit :=
  fun w =>
    match folder w with
    | Some _ => (Done tt, w)
    | None =>
        if folder_pinned w then (say MKDIR_DENIED ;;; raise (SystemExit 1)) w
        else (Done tt, set_folder (Some []) w)
    end.

Definition lift_output {A} (m : M output A) : M world A :=
  fun w =>
    let '(r, out) := m (stdout w) in
    (r, {| folder := folder w; folder_readonly := folder_readonly w;
           folder_pinned := folder_pinned w; save := save w;
           clock := clock w; stdout := out |}).

(** The script from line 76 on.  [root] is the save root; the world it runs
    in holds the backup folder and the save of the playstyle that gets
    chosen. *)
Definition zombisave (fuel : nat) (cfg : config) (root : save_root)
    (events : list sleep_event) : M world rotation :=
  target <- lift_output (locate_save cfg root) ;;
  ensure_folder ;;;
  st <- initial_rotation (latest_save target) ;;
  st <- backup_loop fuel cfg target events st ;;
  say UNCHANGED ;;;
  ret st.

(* ================================================================= *)
(** ** Vocabulary of the statements *)

(** *** Save location *)

(** A child of a playstyle directory is eligible unless it bears the name of
    the backup folder. *)
Definition eligible (cfg : config) (c : child) : bool :=
  negb (String.eqb (fst c) (FOLDER_NAME cfg)).

Definition listed_children (d : listing child) : list child :=
  match d with
  | Listed cs => cs
  | _ => []
  end.

(** The eligible children of all playstyles, each with its playstyle, in the
    order the two nested loops meet them. *)
Definition candidates (cfg : config) (ps : list playstyle_entry)
  : list (string * child) :=
  flat_map
    (fun p => map (pair (fst p)) (filter (eligible cfg) (listed_children (snd p))))
    ps.

Definition cand_name (c : string * child) : string := fst (snd c).
Definition cand_mtime (c : string * child) : Z := snd (snd c).

Definition is_listed {A} (d : listing A) : bool :=
  match d with
  | Listed _ => true
  | _ => false
  end.

(** Every entry of the save root is a directory that can be listed. *)
Definition all_listable (ps : list playstyle_entry) : bool :=
  forallb (fun p => is_listed (snd p)) ps.


Definition chosen (c : string * child) : latest :=
  {| latest_playstyle := fst c;
     latest_save := cand_name c;
     latest_modified := cand_mtime c |}.

(** One step of the two nested loops, on a candidate. *)
Definition pick (best : latest) (c : string * child) : latest :=
  if cand_mtime c >? latest_modified best then chosen c else best.

(** *** Eviction *)

(** The entries of a folder that count as backups of [save]. *)
Definition backups_of (save : string) (es : list entry) : list entry :=
  filter (fun e => belongs save (e_name e)) es.

(** How many backups of [save] are strictly older than [e]. *)
Definition older_count (save : string) (es : list entry) (e : entry) : nat :=
  List.length (filter (fun x => e_mtime x <? e_mtime e) (backups_of save es)).

(** The folder without the [k] oldest backups of [save]: the other entries,
    and the backups that have at least [k] older ones, in their order. *)
Definition survivors (k : nat) (save : string) (es : list entry) : list entry :=
  filter
    (fun e => negb (belongs save (e_name e)) || (k <=? older_count save es e)%nat)
    es.

(** One step of the scan at lines 154-159, on a backup of the save. *)
Definition earlier (acc : string * Z) (e : entry) : string * Z :=
  if (snd acc =? 0) || (e_mtime e <? snd acc) then (e_name e, e_mtime e) else acc.

Definition earliest_of (save : string) (es : list entry) : string * Z :=
  fold_left earlier (backups_of save es) ("", 0).

Definition removable (e : entry) : bool :=
  is_file (e_node e) && negb (e_locked e).

(** The lines of the output that announce a deletion. *)
Definition announcements (out : output) : nat :=
  List.length (filter (startswith "Backup limit reached, deleting ") out).

Definition denials (out : output) : nat :=
  List.length (filter (String.eqb DELETE_DENIED) out).

Fixpoint distinctb {A} (eqb : A -> A -> bool) (l : list A) : bool :=
  match l with
  | [] => true
  | x :: l' => negb (existsb (eqb x) l') && distinctb eqb l'
  end.

(** A folder as eviction expects it: no two entries share a name, and the
    backups of the save are regular files that may be removed, with time
    stamps that are pairwise different and not [0]. *)
Definition tidy (save : string) (es : list entry) : bool :=
  distinctb String.eqb (map e_name es)
  && distinctb Z.eqb (map e_mtime (backups_of save es))
  && forallb (fun e => removable e && negb (e_mtime e =? 0)) (backups_of save es).

(** The number of rounds [while total_num >= LIMIT] can make. *)
Definition rounds (limit total_num : Z) : nat := Z.to_nat (total_num - limit + 1).

(** *** The backup cycle *)

(** The entry of the backup folder that bears [name], if any. *)
Definition artifact (w : world) (name : string) : option entry :=
  match folder w with
  | Some es => lookup name es
  | None => None
  end.

(** [name] is a regular file of the backup folder. *)
Definition is_backup_file (w : world) (name : string) : bool :=
  match artifact w name with
  | Some e => is_file (e_node e)
  | None => false
  end.

(** The count eviction leaves, as arithmetic on the count it is given. *)
Definition evicted (limit total_num : Z) : Z :=
  if limit =? 0 then total_num
  else if total_num >=? limit then limit - 1 else total_num.

(** The sequence number the initial scan reads off the name of a backup. *)
Definition sequence_number (backup : string) : option Z :=
  let '(_, _, after) := rpartition SUFFIX_SEPARATOR backup in
  py_int (removesuffix ".zip" (removeprefix SUFFIX_BEGIN after)).

(** The number of entries of the backup folder. *)
Definition folder_size (w : world) : nat :=
  match folder w with
  | Some es => List.length es
  | None => 0%nat
  end.

(** *** Sample data *)

Definition sample_cfg (method : option Z) (limit : Z) : config :=
  {| FOLDER_NAME := "save_backups"; METHOD := method; LEVEL := 5;
     INTERVAL := 30; LIMIT := limit |}.

Definition sample_world (es : list entry) : world :=
  {| folder := Some es; folder_readonly := false; folder_pinned := false;
     save := Some (100, Dir [("map_0_0.bin", File)]); clock := 500;
     stdout := [] |}.

Definition five_backups : list entry :=
  [ new_entry "alpha_bak0.zip" 30 File;
    new_entry "alpha_bak1.zip" 10 File;
    new_entry "alpha_bak2.zip" 50 File;
    new_entry "alpha_bak3.zip" 20 File;
    new_entry "alpha_bak4.zip" 40 File ].

Definition locked_backup : list entry :=
  [ {| e_name := "alpha_bak0.zip"; e_mtime := 10; e_node := File;
       e_locked := true |} ].

(** A folder that holds one backup of another save, [alpha2]. *)
Definition neighbour_backup : list entry :=
  [ new_entry "alpha2_bak3.zip" 10 File ].

(** A folder that holds one plain copy of the save. *)
Definition copied_backup : list entry :=
  [ new_entry "alpha_bak0" 100 (Dir [("map_0_0.bin", File)]) ].

Definition sample_root : save_root :=
  Listed [("Survival", Listed [("alpha", 100)])].

(** Before the first run: the backup folder does not exist yet. *)
Definition fresh_world : world :=
  {| folder := None; folder_readonly := false; folder_pinned := false;
     save := Some (100, Dir [("map_0_0.bin", File)]); clock := 500;
     stdout := [] |}.

(** The game saves again: the save's time stamp moves to [t]. *)
Definition touch_save (t : Z) (w : world) : world :=
  {| folder := folder w; folder_readonly := folder_readonly w;
     folder_pinned := folder_pinned w;
     save := option_map (fun s => (t, snd s)) (save w);
     clock := clock w; stdout := stdout w |}.

(** During a sleep the game saves and the user puts a directory named
    [alpha_bak1] into the backup folder. *)
Definition user_adds_directory (w : world) : world :=
  touch_save 200
    (set_folder
       (option_map (fun es => es ++ [new_entry "alpha_bak1" 150 (Dir [])])
          (folder w))
       w).

(** During a sleep the game saves and the user empties the backup folder. *)
Definition user_empties_folder (w : world) : world :=
  touch_save 200 (set_folder (Some []) w).

Definition alpha_target : latest :=
  {| latest_playstyle := "Survival"; latest_save := "alpha";
     latest_modified := 100 |}.

Definition zip_cfg : config := sample_cfg (Some ZIP_DEFLATED) 0.

(** The first cycle of a run on an empty backup folder. *)
Definition first_cycle : outcome rotation * world :=
  backup_cycle 5 zip_cfg alpha_target
    {| backup_num := 0; total_num := 0; last_mod := 0; current_mod := 1 |}
    (sample_world []).

(** The world the script wakes up in when the user emptied the backup folder
    during the sleep that follows the first cycle. *)
Definition emptied_world : world :=
  after_sleep zip_cfg user_empties_folder (snd first_cycle).

(** A save root whose only saves bear the time stamps [-10] and [0]. *)
Definition epoch_root : save_root :=
  Listed [("Survival", Listed [("alpha", -10); ("beta", 0)])].

(** A save root with a playstyle that may not be listed. *)
Definition guarded_root : save_root :=
  Listed [("Survival", Listed [("alpha", 100)]); ("Sandbox", Denied)].

Definition two_playstyles : list playstyle_entry :=
  [ ("Survival", Listed [("alpha", 100); ("save_backups", 400); ("beta", 300)]);
    ("Sandbox", Listed [("gamma", 300); ("delta", 200)]) ].


(* ================================================================= *)
(** ** The arguments and the constants made of them (lines 14-74) *)

(** The choices of [--compression]. *)
Inductive compression : Type := NONE | STORED | DEFLATED | BZIP2 | LZMA.

(** Which compression modules [importlib.util.find_spec] finds. *)
Record platform : Type := {
  has_zlib : bool;
  has_bz2 : bool;
  has_lzma : bool
}.

Definition FOLDER_DEFAULT : string := "save_backups".
Definition LEVEL_DEFAULT : Z := 5.
Definition INTERVAL_DEFAULT : Z := 30.
Definition SAVE_LIMIT_DEFAULT : Z := 0.

(** [compression_choices] after lines 23-32. *)
Definition compression_choices (p : platform) : list compression :=
  [NONE; STORED]
    ++ (if has_zlib p then [DEFLATED] else [])
    ++ (if has_bz2 p then [BZIP2] else [])
    ++ (if has_lzma p then [LZMA] else []).

(** [compression_default] after lines 24-28. *)
Definition compression_default (p : platform) : compression :=
  if has_zlib p then DEFLATED else STORED.

(** The dictionary [METHODS]. *)
Definition METHODS (c : compression) : option Z :=
  match c with
  | NONE => None
  | STORED => Some ZIP_STORED
  | DEFLATED => Some ZIP_DEFLATED
  | BZIP2 => Some ZIP_BZIP2
  | LZMA => Some ZIP_LZMA
  end.

(** What [parser.parse_args()] returns, but for the save directory, which the
    model receives as a listing. *)
Record arguments : Type := {
  arg_folder : string;
  arg_compression : compression;
  arg_level : Z;
  arg_interval : Z;
  arg_number : Z
}.

(** The arguments when the command line gives none. *)
Definition default_arguments (p : platform) : arguments :=
  {| arg_folder := FOLDER_DEFAULT;
     arg_compression := compression_default p;
     arg_level := LEVEL_DEFAULT;
     arg_interval := INTERVAL_DEFAULT;
     arg_number := SAVE_LIMIT_DEFAULT |}.

(** [n in range(lo, hi)]. *)
Definition in_range (lo hi n : Z) : bool := (lo <=? n) && (n <? hi).

(** The test of line 57. *)
Definition invalid_level (c : compression) (level : Z) : bool :=
  match c with
  | DEFLATED => negb (in_range 0 10 level)
  | BZIP2 => negb (in_range 1 10 level)
  | _ => false
  end.

Definition LEVEL_WARNING : string :=
  "WARNING: Invalid compression level, reverting to default of "
    +++ py_str LEVEL_DEFAULT.
Definition LIMIT_ERROR : string :=
  "ERROR: Backup limit value must be a positive integer!".

(** Lines 51-71: the folder special case, the two sanity checks, and the
    script constants. *)
Definition configure (args : arguments) : M output config :=
  let folder := if String.eqb (arg_folder args) "." then "" else arg_folder args in
  level <- (if invalid_level (arg_compression args) (arg_level args)
            then print put_line LEVEL_WARNING ;;; ret LEVEL_DEFAULT
            else ret (arg_level args)) ;;
  if arg_number args <? 0 then
    print put_line LIMIT_ERROR ;;; raise (SystemExit 1)
  else
    ret {| FOLDER_NAME := folder;
           METHOD := METHODS (arg_compression args);
           LEVEL := level;
           INTERVAL := arg_interval args;
           LIMIT := arg_number args |}.

(** The whole script, from the parsed arguments on. *)
Definition main (fuel : nat) (args : arguments) (root : save_root)
    (events : list sleep_event) : M world rotation :=
  cfg <- lift_output (configure args) ;;
  zombisave fuel cfg root events.

(** *** Characters of a string *)

Fixpoint all_chars (p : ascii -> bool) (s : string) : bool :=
  match s with
  | EmptyString => true
  | String c s' => p c && all_chars p s'
  end.

Definition is_digit (c : ascii) : bool :=
  match digit_of c with
  | Some _ => true
  | None => false
  end.

(** The extensions the script gives a backup: none, or [.zip]. *)
Definition is_extension (ext : string) : bool :=
  String.eqb ext "" || String.eqb ext ".zip".

(** No entry of the list bears the empty name. *)
Definition all_named (es : list entry) : bool :=
  forallb (fun e => negb (String.eqb (e_name e) "")) es.

(** The name of a backup can be parsed for its sequence number. *)
Definition parses (name : string) : bool :=
  match sequence_number name with
  | Some _ => true
  | None => false
  end.

(** A save named like a game save, and the playstyle directory it lies in
    when backups are made in place. *)
Definition in_place_folder : list entry :=
  [ new_entry "alpha" 100 (Dir [("map_0_0.bin", File)]) ].


(** What eviction owes the entries [es] of the folder it started on: those
    that are no backups of the save are still there. *)
Definition spares (save : string) (es : list entry) (w : world) : Prop :=
  match folder w with
  | Some now =>
      all_named now = true
      /\ forall e, In e es -> belongs save (e_name e) = false -> In e now
  | None => forall e, In e es -> belongs save (e_name e) = true
  end.

(** A folder with backups of two saves and a file of the user's. *)
Definition shared_folder : list entry :=
  [ new_entry "notes.txt" 5 File;
    new_entry "alpha_bak0.zip" 10 File;
    new_entry "beta_bak0.zip" 20 File;
    new_entry "alpha_bak1.zip" 30 File ].

(** A folder with two backups of the same age, and one stamped [0]. *)
Definition twin_backups : list entry :=
  [ new_entry "alpha_bak0.zip" 30 File;
    new_entry "alpha_bak1.zip" 10 File;
    new_entry "alpha_bak2.zip" 10 File ].

(** Two configurations that the engine cannot tell apart: it reads the
    method only for its truth value, and passes the level on to the archive
    writer. *)
Definition same_engine (cfg cfg' : config) : Prop :=
  FOLDER_NAME cfg = FOLDER_NAME cfg'
  /\ LIMIT cfg = LIMIT cfg'
  /\ INTERVAL cfg = INTERVAL cfg'
  /\ truthy_method (METHOD cfg) = truthy_method (METHOD cfg').

Definition with_compression (c : compression) (args : arguments) : arguments :=
  {| arg_folder := arg_folder args;
     arg_compression := c;
     arg_level := arg_level args;
     arg_interval := arg_interval args;
     arg_number := arg_number args |}.

(** During the sleep the save is deleted. *)
Definition save_vanishes (w : world) : world :=
  {| folder := folder w; folder_readonly := folder_readonly w;
     folder_pinned := folder_pinned w; save := None;
     clock := clock w; stdout := stdout w |}.


(** The arguments [-f . -c DEFLATED -l 77 -n -1]. *)
Definition rejected_arguments : arguments :=
  {| arg_folder := "."; arg_compression := DEFLATED; arg_level := 77;
     arg_interval := 30; arg_number := -1 |}.

(** The arguments [-c STORED]. *)
Definition stored_arguments : arguments :=
  {| arg_folder := "save_backups"; arg_compression := STORED; arg_level := 5;
     arg_interval := 30; arg_number := 0 |}.

(** The backup folder and the save are the same in both worlds. *)
Definition same_files (w w' : world) : Prop :=
  folder w' = folder w /\ save w' = save w.

(** *** Tactics *)

(** Case analysis on the innermost scrutinee of the goal. *)
Ltac destruct_scrutinee :=
  match goal with
  | |- context [match ?scrutinee with _ => _ end] =>
      lazymatch scrutinee with
      | context [match _ with _ => _ end] => fail
      | _ => destruct scrutinee eqn:?
      end
  end.

(** Evaluates [digit_of] on a character of the goal. *)
Ltac eval_digit :=
  match goal with
  | |- context [digit_of ?c] =>
      let v := eval vm_compute in (digit_of c) in
      change (digit_of c) with v
  end.

(* ================================================================= *)
(** * Properties *)

(* ================================================================= *)
(** ** Facts about the monad *)

Lemma bind_done {St A B} (m : M St A) (k : A -> M St B) s a s' :
  m s = (Done a, s') -> bind m k s = k a s'.
Proof. intros H. unfold bind. now rewrite H. Qed.

Lemma bind_raised {St A B} (m : M St A) (k : A -> M St B) s e s' :
  m s = (Raised e, s') -> bind m k s = (Raised e, s').
Proof. intros H. unfold bind. now rewrite H. Qed.

Lemma bind_inv {St A B} (m : M St A) (k : A -> M St B) s b s' :
  bind m k s = (Done b, s') ->
  exists a s1, m s = (Done a, s1) /\ k a s1 = (Done b, s').
Proof.
  unfold bind. destruct (m s) as [[a | e |] s1]; intros H; try discriminate.
  now exists a, s1.
Qed.

(* ================================================================= *)
(** ** Facts about strings *)

Lemma prefix_iff p s :
  String.prefix p s = true <-> exists t, s = p +++ t.
Proof.
  revert s. induction p as [| a p IH]; intros s; simpl.
  - split; [intros _; exists s | intros _; destruct s]; reflexivity.
  - destruct s as [| b s]; simpl.
    + split; [discriminate | intros [t H]; discriminate].
    + destruct (ascii_dec a b) as [-> | Hab].
      * rewrite IH. split; intros [t H]; exists t; [now subst | now injection H].
      * split; [discriminate | intros [t H]; injection H; intros; subst; now elim Hab].
Qed.

Lemma py_in_iff sub s :
  py_in sub s = true <-> exists pre post, s = pre +++ sub +++ post.
Proof.
  induction s as [| c s IH]; cbn [py_in].
  - rewrite orb_false_r, prefix_iff. split.
    + intros [t H]. exists "", t. exact H.
    + intros [pre [post H]]. destruct pre; simpl in H.
      * now exists post.
      * discriminate.
  - rewrite orb_true_iff, prefix_iff, IH. split.
    + intros [[t H] | [pre [post H]]].
      * exists "", t. exact H.
      * exists (String c pre), post. simpl. now rewrite H.
    + intros [pre [post H]]. destruct pre as [| c' pre]; simpl in H.
      * left. now exists post.
      * right. injection H as _ H. now exists pre, post.
Qed.

(* ================================================================= *)
(** ** Save location *)

Lemma for_each_saves cfg playstyle cs best out :
  for_each cs (consider_save cfg playstyle) best out
  = (Done (fold_left pick (map (pair playstyle) (filter (eligible cfg) cs)) best),
     out).
Proof.
  revert best. induction cs as [| [save t] cs IH]; intros best; [reflexivity |].
  cbn [for_each filter]. unfold eligible at 1. cbn [fst].
  unfold bind, consider_save at 1.
  destruct (String.eqb save (FOLDER_NAME cfg)); cbn [negb].
  - unfold ret. apply IH.
  - cbn [map fold_left]. unfold pick at 2, cand_mtime, chosen, cand_name.
    cbn [fst snd].
    destruct (t >? latest_modified best); unfold ret; apply IH.
Qed.

Lemma for_each_playstyles cfg ps best out :
  all_listable ps = true ->
  for_each ps (consider_playstyle cfg) best out
  = (Done (fold_left pick (candidates cfg ps) best), out).
Proof.
  revert best. induction ps as [| [p d] ps IH]; intros best Hl; [reflexivity |].
  cbn [all_listable forallb snd] in Hl. apply andb_prop in Hl as [Hd Hl].
  destruct d as [cs | | |]; try discriminate.
  cbn [for_each candidates flat_map fst snd listed_children].
  rewrite fold_left_app.
  unfold bind, consider_playstyle at 1. cbn [os_listdir]. unfold ret at 1.
  unfold bind. rewrite for_each_saves. now apply IH.
Qed.

(** The fold keeps the first candidate among those of greatest time stamp,
    provided one is above the initial value. *)
Lemma fold_pick_spec cs : forall best,
  (fold_left pick cs best = best
   /\ forall c, In c cs -> cand_mtime c <= latest_modified best)
  \/ exists l1 c l2,
       cs = l1 ++ c :: l2
       /\ fold_left pick cs best = chosen c
       /\ latest_modified best < cand_mtime c
       /\ (forall x, In x l1 -> cand_mtime x < cand_mtime c)
       /\ (forall x, In x l2 -> cand_mtime x <= cand_mtime c).
Proof.
  induction cs as [| c cs IH]; intros best.
  - left. split; [reflexivity | intros c []].
  - cbn [fold_left].
    assert (Hp : pick best c
                 = if cand_mtime c >? latest_modified best then chosen c else best)
      by reflexivity.
    destruct (Z.gtb_spec (cand_mtime c) (latest_modified best)) as [Hgt | Hle];
      rewrite Hp; clear Hp.
    + right. destruct (IH (chosen c)) as [[Heq Hall] | (l1 & x & l2 & -> & Hx & Hlt & H1 & H2)].
      * exists [], c, cs. cbn in Hall.
        split; [reflexivity |]. split; [exact Heq |]. split; [lia |].
        split; [intros x [] | exact Hall].
      * exists (c :: l1), x, l2. cbn in Hlt.
        split; [reflexivity |]. split; [exact Hx |]. split; [lia |].
        split; [| exact H2].
        intros y [<- | Hy]; [lia | now apply H1].
    + destruct (IH best) as [[Heq Hall] | (l1 & x & l2 & -> & Hx & Hlt & H1 & H2)].
      * left. split; [exact Heq |]. intros y [<- | Hy]; [lia | now apply Hall].
      * right. exists (c :: l1), x, l2.
        split; [reflexivity |]. split; [exact Hx |]. split; [exact Hlt |].
        split; [| exact H2].
        intros y [<- | Hy]; [lia | now apply H1].
Qed.

Lemma locate_save_listed cfg ps out :
  all_listable ps = true ->
  locate_save cfg (Listed ps) out
  = match ps with
    | [] => (Raised (SystemExit 1), out ++ [NO_SAVES])
    | first :: _ =>
        let best := fold_left pick (candidates cfg ps)
                      {| latest_playstyle := fst first;
                         latest_save := "";
                         latest_modified := 0 |} in
        if String.eqb (latest_save best) ""
        then (Raised (SystemExit 1), out ++ [NO_SAVES])
        else (Done best, out)
    end.
Proof.
  intros Hl. unfold locate_save, try_except, bind. cbn [os_listdir]. unfold ret at 1.
  destruct ps as [| first rest]; [reflexivity |].
  rewrite (for_each_playstyles cfg (first :: rest) _ out Hl). cbv zeta.
  destruct (String.eqb _ ""); reflexivity.
Qed.







(* ================================================================= *)
(** ** The backup folder *)

Lemma lookup_In es : forall e,
  NoDup (map e_name es) -> In e es -> lookup (e_name e) es = Some e.
Proof.
  induction es as [| a es IH]; intros e Hnd Hin; [contradiction |].
  cbn [map] in Hnd. inversion Hnd as [| ? ? Hna Hnd']; subst.
  unfold lookup. cbn [find]. destruct Hin as [-> | Hin].
  - now rewrite String.eqb_refl.
  - destruct (String.eqb_spec (e_name a) (e_name e)) as [Heq | Hne].
    + exfalso. apply Hna. rewrite Heq. now apply in_map.
    + now apply IH.
Qed.

Lemma lookup_name name es e : lookup name es = Some e -> e_name e = name /\ In e es.
Proof.
  unfold lookup. intros H. apply find_some in H as [Hin Heq].
  split; [now apply String.eqb_eq | assumption].
Qed.

Lemma lookup_names name es :
  In name (map e_name es) -> exists e, lookup name es = Some e.
Proof.
  induction es as [| a es IH]; [intros [] |].
  unfold lookup. cbn [map find]. intros [<- | Hin].
  - rewrite String.eqb_refl. now exists a.
  - destruct (String.eqb (e_name a) name); [now exists a | now apply IH].
Qed.

(** The scan of the folder for the earliest backup never fails and changes
    nothing; it computes a fold over the backups of the save. *)
Lemma for_each_consider save es w :
  folder w = Some es ->
  NoDup (map e_name es) ->
  forall l acc,
    incl l es ->
    for_each (map e_name l) (consider_backup save) acc w
    = (Done (fold_left earlier (backups_of save l) acc), w).
Proof.
  intros Hf Hnd. induction l as [| e l IH]; intros acc Hincl; [reflexivity |].
  assert (In e es) as He by (apply Hincl; now left).
  assert (incl l es) as Hl by (intros x Hx; apply Hincl; now right).
  cbn [map for_each backups_of filter]. unfold bind.
  unfold consider_backup at 1. destruct acc as [earliest_backup earliest_mod].
  destruct (belongs save (e_name e)).
  - unfold bind, getmtime_backup. rewrite Hf, (lookup_In es e Hnd He).
    cbn [fold_left]. unfold earlier at 2. cbn [snd].
    destruct ((earliest_mod =? 0) || (e_mtime e <? earliest_mod));
      unfold ret; now apply IH.
  - unfold ret. now apply IH.
Qed.

Lemma find_earliest_pure save es w :
  folder w = Some es ->
  NoDup (map e_name es) ->
  find_earliest save w = (Done (earliest_of save es), w).
Proof.
  intros Hf Hnd. unfold find_earliest, bind, listdir_backups. rewrite Hf.
  apply (for_each_consider save es w Hf Hnd). apply incl_refl.
Qed.

(** Without the hypothesis on names: the scan still succeeds and changes
    nothing, because every name it asks about was just listed. *)
Lemma for_each_consider_total save es w :
  folder w = Some es ->
  forall l acc,
    incl l (map e_name es) ->
    exists r,
      for_each l (consider_backup save) acc w = (Done r, w)
      /\ (r = acc \/ (In (fst r) l /\ belongs save (fst r) = true)).
Proof.
  intros Hf. induction l as [| n l IH]; intros acc Hincl.
  - exists acc. split; [reflexivity | now left].
  - assert (In n (map e_name es)) as Hn by (apply Hincl; now left).
    assert (incl l (map e_name es)) as Hl by (intros x Hx; apply Hincl; now right).
    cbn [for_each]. unfold bind. unfold consider_backup at 1.
    destruct acc as [earliest_backup earliest_mod].
    destruct (belongs save n) eqn:Hb.
    + unfold bind, getmtime_backup. rewrite Hf.
      destruct (lookup_names n es Hn) as [e He]. rewrite He.
      destruct ((earliest_mod =? 0) || (e_mtime e <? earliest_mod)); unfold ret.
      * destruct (IH (n, e_mtime e) Hl) as [r [Hr Hor]]. exists r. split; [exact Hr |].
        right. destruct Hor as [-> | [Hin Hbr]]; cbn [fst].
        -- split; [now left | exact Hb].
        -- split; [now right | exact Hbr].
      * destruct (IH (earliest_backup, earliest_mod) Hl) as [r [Hr Hor]].
        exists r. split; [exact Hr |].
        destruct Hor as [-> | [Hin Hbr]]; [now left | right].
        split; [now right | exact Hbr].
    + unfold ret.
      destruct (IH (earliest_backup, earliest_mod) Hl) as [r [Hr Hor]].
      exists r. split; [exact Hr |].
      destruct Hor as [-> | [Hin Hbr]]; [now left | right].
      split; [now right | exact Hbr].
Qed.

Lemma find_earliest_total save es w :
  folder w = Some es ->
  exists r, find_earliest save w = (Done r, w)
            /\ (r = ("", 0) \/ (In (fst r) (map e_name es) /\ belongs save (fst r) = true)).
Proof.
  intros Hf. unfold find_earliest, bind, listdir_backups. rewrite Hf.
  apply (for_each_consider_total save es w Hf). apply incl_refl.
Qed.

(** The fold returns a backup of least time stamp, when none is stamped [0]. *)
Lemma fold_earlier_min l : forall acc,
  snd acc <> 0 ->
  (forall x, In x l -> e_mtime x <> 0) ->
  (fold_left earlier l acc = acc /\ forall x, In x l -> snd acc <= e_mtime x)
  \/ exists m, In m l
       /\ fold_left earlier l acc = (e_name m, e_mtime m)
       /\ e_mtime m < snd acc
       /\ forall x, In x l -> e_mtime m <= e_mtime x.
Proof.
  induction l as [| e l IH]; intros acc Hacc Hnz.
  - left. split; [reflexivity | intros x []].
  - assert (e_mtime e <> 0) as He by (apply Hnz; now left).
    assert (forall x, In x l -> e_mtime x <> 0) as Hnz' by (intros x Hx; apply Hnz; now right).
    cbn [fold_left].
    assert (Hp : earlier acc e
                 = if (snd acc =? 0) || (e_mtime e <? snd acc)
                   then (e_name e, e_mtime e) else acc) by reflexivity.
    apply Z.eqb_neq in Hacc as Hacc'. rewrite Hacc' in Hp. cbn [orb] in Hp.
    destruct (Z.ltb_spec (e_mtime e) (snd acc)) as [Hlt | Hge]; rewrite Hp; clear Hp.
    + right. destruct (IH (e_name e, e_mtime e) He Hnz')
        as [[Heq Hall] | (m & Hm & Hf & Hlt' & Hall)]; cbn [snd] in *.
      * exists e. split; [now left |]. split; [exact Heq |]. split; [exact Hlt |].
        intros x [<- | Hx]; [lia | now apply Hall].
      * exists m. split; [now right |]. split; [exact Hf |]. split; [lia |].
        intros x [<- | Hx]; [lia | now apply Hall].
    + destruct (IH acc Hacc Hnz') as [[Heq Hall] | (m & Hm & Hf & Hlt' & Hall)].
      * left. split; [exact Heq |]. intros x [<- | Hx]; [lia | now apply Hall].
      * right. exists m. split; [now right |]. split; [exact Hf |].
        split; [exact Hlt' |]. intros x [<- | Hx]; [lia | now apply Hall].
Qed.

Lemma earliest_of_min save es :
  (forall x, In x (backups_of save es) -> e_mtime x <> 0) ->
  backups_of save es <> [] ->
  exists m, In m (backups_of save es)
    /\ earliest_of save es = (e_name m, e_mtime m)
    /\ forall x, In x (backups_of save es) -> e_mtime m <= e_mtime x.
Proof.
  unfold earliest_of. destruct (backups_of save es) as [| e l]; [congruence |].
  intros Hnz _. cbn [fold_left]. unfold earlier at 2. cbn [snd Z.eqb orb].
  assert (e_mtime e <> 0) as He by (apply Hnz; now left).
  destruct (fold_earlier_min l (e_name e, e_mtime e) He)
    as [[Heq Hall] | (m & Hm & Hf & Hlt & Hall)]; cbn [snd] in *.
  - intros x Hx. apply Hnz. now right.
  - exists e. split; [now left |]. split; [exact Heq |].
    intros x [<- | Hx]; [lia | now apply Hall].
  - exists m. split; [now right |]. split; [exact Hf |].
    intros x [<- | Hx]; [lia | now apply Hall].
Qed.

(* ================================================================= *)
(** ** Lists of entries *)

Lemma distinctb_NoDup {A} (eqb : A -> A -> bool) (l : list A) :
  (forall x y, eqb x y = true <-> x = y) ->
  distinctb eqb l = true -> NoDup l.
Proof.
  intros Hspec. induction l as [| x l IH]; intros H; [constructor |].
  cbn [distinctb] in H. apply andb_prop in H as [Hx Hl]. constructor.
  - intros Hin. apply negb_true_iff in Hx.
    assert (existsb (eqb x) l = true) as Ht.
    { apply existsb_exists. exists x. split; [assumption | now apply Hspec]. }
    congruence.
  - now apply IH.
Qed.

Lemma NoDup_map_filter {K} (key : entry -> K) (keep : entry -> bool) es :
  NoDup (map key es) -> NoDup (map key (filter keep es)).
Proof.
  intros Hnd. induction es as [| e es IH]; [constructor |].
  cbn [map] in Hnd. inversion Hnd as [| ? ? He Hes]; subst.
  cbn [filter]. destruct (keep e); [| now apply IH].
  cbn [map]. constructor; [| now apply IH].
  intros Hin. apply He. apply in_map_iff in Hin as [y [Hy Hin]].
  apply filter_In in Hin as [Hin _]. apply in_map_iff. now exists y.
Qed.

Lemma NoDup_map_eq {A B} (f : A -> B) (l : list A) x y :
  NoDup (map f l) -> In x l -> In y l -> f x = f y -> x = y.
Proof.
  induction l as [| a l IH]; intros H Hx Hy Hf; [contradiction |].
  cbn [map] in H. inversion H as [| ? ? Ha Hl]; subst.
  destruct Hx as [-> | Hx], Hy as [-> | Hy].
  - reflexivity.
  - exfalso. apply Ha. rewrite Hf. now apply in_map.
  - exfalso. apply Ha. rewrite <- Hf. now apply in_map.
  - now apply IH.
Qed.

Lemma filter_twice {A} (p q : A -> bool) (l : list A) :
  filter p (filter q l) = filter (fun x => q x && p x) l.
Proof.
  induction l as [| x l IH]; [reflexivity |].
  cbn [filter]. destruct (q x); cbn [filter andb]; now rewrite IH.
Qed.

Lemma backups_of_unlink save name es :
  backups_of save (unlink name es) = unlink name (backups_of save es).
Proof.
  unfold backups_of, unlink. rewrite !filter_twice.
  apply filter_ext. intros e. apply andb_comm.
Qed.

(** Unlinking the name of [m] takes exactly [m] out of what a filter keeps. *)
Lemma length_filter_unlink (p : entry -> bool) (l : list entry) (m : entry) :
  NoDup (map e_name l) ->
  In m l ->
  List.length (filter p l)
  = (List.length (filter p (unlink (e_name m) l)) + (if p m then 1 else 0))%nat.
Proof.
  induction l as [| a l IH]; intros Hnd Hin; [contradiction |].
  cbn [map] in Hnd. inversion Hnd as [| ? ? Ha Hl]; subst.
  unfold unlink. cbn [filter]. destruct Hin as [-> | Hin].
  - rewrite String.eqb_refl. cbn [negb].
    assert (filter (fun e => negb (String.eqb (e_name e) (e_name m))) l = l) as Hsame.
    { apply forallb_filter_id. apply forallb_forall. intros x Hx.
      apply negb_true_iff, String.eqb_neq. intros Heq. apply Ha.
      rewrite <- Heq. now apply in_map. }
    rewrite Hsame. destruct (p m); cbn [List.length]; lia.
  - destruct (String.eqb_spec (e_name a) (e_name m)) as [Heq | Hne].
    + exfalso. apply Ha. rewrite Heq. now apply in_map.
    + cbn [negb filter]. fold (unlink (e_name m) l).
      specialize (IH Hl Hin). destruct (p a); cbn [List.length]; lia.
Qed.

Lemma survivors_zero save es : survivors 0 save es = es.
Proof.
  unfold survivors. apply forallb_filter_id. apply forallb_forall.
  intros e _. cbn [Nat.leb]. apply orb_true_r.
Qed.

(* ================================================================= *)
(** ** Eviction of the oldest backups *)

(** [tidy], unfolded. *)
Lemma tidy_spec save es :
  tidy save es = true ->
  NoDup (map e_name es)
  /\ NoDup (map e_mtime (backups_of save es))
  /\ forall e, In e (backups_of save es) ->
       e_node e = File /\ e_locked e = false /\ e_mtime e <> 0.
Proof.
  unfold tidy. intros H. apply andb_prop in H as [H H3]. apply andb_prop in H as [H1 H2].
  split; [| split].
  - apply (distinctb_NoDup String.eqb); [apply String.eqb_eq | assumption].
  - apply (distinctb_NoDup Z.eqb); [apply Z.eqb_eq | assumption].
  - intros e He. rewrite forallb_forall in H3. specialize (H3 e He).
    apply andb_prop in H3 as [Hr Hz]. unfold removable in Hr.
    apply andb_prop in Hr as [Hf Hl].
    split; [| split].
    + destruct (e_node e); [reflexivity | discriminate].
    + now apply negb_true_iff.
    + apply negb_true_iff in Hz. now apply Z.eqb_neq.
Qed.

Lemma distinctb_filter {A} (eqb : A -> A -> bool) (f : entry -> A)
    (p : entry -> bool) (l : list entry) :
  distinctb eqb (map f l) = true -> distinctb eqb (map f (filter p l)) = true.
Proof.
  induction l as [| x l IH]; intros H; [reflexivity |].
  cbn [map distinctb] in H. apply andb_prop in H as [Hx Hl].
  cbn [filter]. destruct (p x); [| now apply IH].
  cbn [map distinctb]. rewrite (IH Hl), andb_true_r.
  apply negb_true_iff. apply negb_true_iff in Hx.
  destruct (existsb (eqb (f x)) (map f (filter p l))) eqn:E; [| reflexivity].
  exfalso. apply existsb_exists in E as [y [Hy Heq]].
  apply in_map_iff in Hy as [z [<- Hz]]. apply filter_In in Hz as [Hz _].
  assert (existsb (eqb (f x)) (map f l) = true) as Ht.
  { apply existsb_exists. exists (f z). split; [now apply in_map | assumption]. }
  congruence.
Qed.

Lemma tidy_unlink save name es :
  tidy save es = true -> tidy save (unlink name es) = true.
Proof.
  unfold tidy. intros H. apply andb_prop in H as [H H3]. apply andb_prop in H as [H1 H2].
  rewrite backups_of_unlink. unfold unlink at 1 2 3.
  rewrite (distinctb_filter _ _ _ _ H1), (distinctb_filter _ _ _ _ H2). cbn [andb].
  rewrite forallb_forall in *. intros e He. apply filter_In in He as [He _].
  now apply H3.
Qed.

Lemma filter_none {A} (p : A -> bool) (l : list A) :
  (forall x, In x l -> p x = false) -> filter p l = [].
Proof.
  induction l as [| x l IH]; intros H; [reflexivity |].
  cbn [filter]. rewrite (H x (or_introl eq_refl)). apply IH.
  intros y Hy. apply H. now right.
Qed.

(** Removing the oldest backup [m] and then the [k] oldest of what is left
    removes the [k + 1] oldest. *)
Lemma survivors_step save es m k :
  tidy save es = true ->
  In m (backups_of save es) ->
  (forall x, In x (backups_of save es) -> e_mtime m <= e_mtime x) ->
  survivors k save (unlink (e_name m) es) = survivors (S k) save es.
Proof.
  intros Ht Hm Hmin. destruct (tidy_spec save es Ht) as (Hnames & Htimes & _).
  assert (In m es /\ belongs save (e_name m) = true) as [Hmes Hmb]
    by (now apply filter_In in Hm).
  assert (NoDup (map e_name (backups_of save es))) as Hbn
    by (now apply NoDup_map_filter).
  unfold survivors, unlink at 2. rewrite filter_twice. apply filter_ext_in.
  intros e He. destruct (String.eqb_spec (e_name e) (e_name m)) as [Heq | Hne]; cbn [negb andb].
  - assert (e = m) as -> by (now apply (NoDup_map_eq e_name es)).
    rewrite Hmb. cbn [negb orb]. symmetry. apply Nat.leb_gt.
    unfold older_count.
    assert (filter (fun x => e_mtime x <? e_mtime m) (backups_of save es) = []) as Hnone.
    { apply filter_none. intros x Hx. apply Z.ltb_ge. now apply Hmin. }
    rewrite Hnone. cbn. lia.
  - destruct (belongs save (e_name e)) eqn:Hb; cbn [negb orb]; [| reflexivity].
    assert (In e (backups_of save es)) as Heb by (apply filter_In; now split).
    assert (e_mtime m < e_mtime e) as Hlt.
    { specialize (Hmin e Heb).
      destruct (Z.eq_dec (e_mtime m) (e_mtime e)) as [Hsame | ]; [| lia].
      exfalso. apply Hne.
      now rewrite (NoDup_map_eq e_mtime (backups_of save es) m e Htimes Hm Heb Hsame). }
    unfold older_count. rewrite backups_of_unlink.
    rewrite (length_filter_unlink (fun x => e_mtime x <? e_mtime e)
               (backups_of save es) m Hbn Hm).
    apply Z.ltb_lt in Hlt. rewrite Hlt.
    destruct (Nat.leb_spec k
      (List.length (filter (fun x => e_mtime x <? e_mtime e)
         (unlink (e_name m) (backups_of save es)))));
      symmetry; [apply Nat.leb_le | apply Nat.leb_gt]; lia.
Qed.

Lemma say_done line w : say line w = (Done tt, write_stdout line w).
Proof. reflexivity. Qed.

Lemma delete_backup_file name es e w :
  folder w = Some es ->
  lookup name es = Some e ->
  e_node e = File ->
  e_locked e = false ->
  delete_backup name w = (Done tt, set_folder (Some (unlink name es)) w).
Proof.
  intros Hf Hl Hn Hk.
  unfold delete_backup, try_except, bind, isfile_backup.
  rewrite Hf, Hl, Hn. cbn [is_file]. unfold remove_backup.
  now rewrite Hf, Hl, Hk.
Qed.

Lemma delete_backup_locked name es e w :
  folder w = Some es ->
  lookup name es = Some e ->
  name <> "" ->
  e_locked e = true ->
  delete_backup name w = (Done tt, write_stdout DELETE_DENIED w).
Proof.
  intros Hf Hl Hne Hk. apply String.eqb_neq in Hne.
  unfold delete_backup, try_except, bind, isfile_backup.
  rewrite Hf, Hl. destruct (is_file (e_node e)).
  - unfold remove_backup. now rewrite Hf, Hl, Hk.
  - unfold rmdir_backup. now rewrite Hf, Hne, Hl, Hk.
Qed.

(** One round of eviction on a tidy folder removes the oldest backup. *)
Lemma evict_once_oldest save es w total_num :
  folder w = Some es ->
  tidy save es = true ->
  backups_of save es <> [] ->
  exists m,
    In m (backups_of save es)
    /\ (forall x, In x (backups_of save es) -> e_mtime m <= e_mtime x)
    /\ evict_once save total_num w
       = (Done (total_num - 1),
          set_folder (Some (unlink (e_name m) es))
            (write_stdout (LIMIT_REACHED (e_name m)) w)).
Proof.
  intros Hf Ht Hne. destruct (tidy_spec save es Ht) as (Hnames & _ & Hall).
  destruct (earliest_of_min save es) as (m & Hm & He & Hmin); [| assumption |].
  { intros x Hx. now apply Hall. }
  exists m. split; [assumption |]. split; [assumption |].
  destruct (Hall m Hm) as (Hfile & Hlock & _).
  assert (In m es) as Hmes by (now apply filter_In in Hm).
  unfold evict_once.
  rewrite (bind_done _ _ _ _ _ (find_earliest_pure save es w Hf Hnames)), He.
  rewrite (bind_done _ _ _ _ _ (say_done _ w)).
  erewrite bind_done; [reflexivity |].
  now apply (delete_backup_file _ es m); [| apply lookup_In | |].
Qed.

Lemma length_backups_unlink save es m :
  NoDup (map e_name es) ->
  In m (backups_of save es) ->
  List.length (backups_of save es)
  = S (List.length (backups_of save (unlink (e_name m) es))).
Proof.
  intros Hnd Hm.
  assert (NoDup (map e_name (backups_of save es))) as Hbn by (now apply NoDup_map_filter).
  pose proof (length_filter_unlink (fun _ => true) (backups_of save es) m Hbn Hm) as H.
  rewrite backups_of_unlink.
  rewrite !(forallb_filter_id (fun _ => true)) in H
    by (apply forallb_forall; reflexivity).
  lia.
Qed.

Lemma announcements_limit out name :
  announcements (out ++ [LIMIT_REACHED name]) = S (announcements out).
Proof.
  unfold announcements. rewrite filter_app, length_app. cbn [filter].
  assert (startswith "Backup limit reached, deleting " (LIMIT_REACHED name) = true) as ->.
  { apply prefix_iff. now exists name. }
  cbn [List.length]. lia.
Qed.

Lemma announcements_denied out :
  announcements (out ++ [DELETE_DENIED]) = announcements out.
Proof.
  unfold announcements. rewrite filter_app, length_app. cbn. lia.
Qed.

(** [k] rounds of the loop on a tidy folder that holds at least [k] backups
    of the save remove its [k] oldest backups and nothing else. *)
Lemma evict_loop_oldest save limit : forall k fuel es w total_num,
  folder w = Some es ->
  tidy save es = true ->
  (k <= List.length (backups_of save es))%nat ->
  (k <= fuel)%nat ->
  Z.of_nat k = Z.max 0 (total_num - limit + 1) ->
  exists w',
    evict_loop fuel limit save total_num w = (Done (total_num - Z.of_nat k), w')
    /\ folder w' = Some (survivors k save es)
    /\ (List.length (backups_of save (survivors k save es)) + k
        = List.length (backups_of save es))%nat
    /\ announcements (stdout w') = (announcements (stdout w) + k)%nat.
Proof.
  induction k as [| k IH]; intros fuel es w total_num Hf Ht Hlen Hfuel Hk.
  - exists w. assert ((total_num >=? limit) = false) as Hc by (rewrite Z.geb_leb; apply Z.leb_gt; lia).
    split; [| split; [| split]].
    + destruct fuel; cbn [evict_loop]; rewrite Hc; unfold ret; do 2 f_equal; lia.
    + now rewrite survivors_zero.
    + rewrite survivors_zero. lia.
    + lia.
  - assert ((total_num >=? limit) = true) as Hc by (rewrite Z.geb_leb; apply Z.leb_le; lia).
    destruct fuel as [| fuel]; [lia |].
    assert (backups_of save es <> []) as Hne.
    { intros E. rewrite E in Hlen. cbn in Hlen. lia. }
    destruct (evict_once_oldest save es w total_num Hf Ht Hne) as (m & Hm & Hmin & Hstep).
    destruct (tidy_spec save es Ht) as (Hnames & _).
    pose proof (length_backups_unlink save es m Hnames Hm) as Hlen1.
    destruct (IH fuel (unlink (e_name m) es)
                (set_folder (Some (unlink (e_name m) es))
                   (write_stdout (LIMIT_REACHED (e_name m)) w))
                (total_num - 1))
      as (w' & Hrun & Hfw & Hcount & Hann).
    + reflexivity.
    + now apply tidy_unlink.
    + lia.
    + lia.
    + lia.
    + exists w'. split; [| split; [| split]].
      * cbn [evict_loop]. rewrite Hc, (bind_done _ _ _ _ _ Hstep), Hrun.
        do 2 f_equal. lia.
      * now rewrite Hfw, survivors_step.
      * rewrite <- (survivors_step save es m k Ht Hm Hmin). lia.
      * rewrite Hann. cbn [stdout set_folder write_stdout].
        rewrite announcements_limit. lia.
Qed.

(** C1 (as amended).  With a limit of 3 and a count of 5, on a folder whose 5
    backups of the save are removable archive files with pairwise different,
    non-zero time stamps, the eviction phase runs three rounds: it deletes
    exactly the 3 oldest backups and leaves the 2 newest and every other
    entry of the folder in place, whatever the order of the listing; the
    count it returns is 2. *)
Theorem evict_limit3_of_5 fuel cfg save es w :
  folder w = Some es ->
  tidy save es = true ->
  LIMIT cfg = 3 ->
  List.length (backups_of save es) = 5%nat ->
  (3 <= fuel)%nat ->
  exists w',
    evict fuel cfg save 5 w = (Done 2, w')
    /\ folder w' = Some (survivors 3 save es)
    /\ List.length (backups_of save (survivors 3 save es)) = 2%nat.
Proof.
  intros Hf Ht Hl Hlen Hfuel.
  destruct (evict_loop_oldest save 3 3 fuel es w 5 Hf Ht) as (w' & Hrun & Hfw & Hcount & _);
    [lia | assumption | reflexivity |].
  exists w'. unfold evict. rewrite Hl. cbn [Z.eqb].
  split; [exact Hrun |]. split; [exact Hfw | lia].
Qed.

Example survivors_of_five :
  map e_name (survivors 3 "alpha" five_backups) = ["alpha_bak2.zip"; "alpha_bak4.zip"].
Proof. vm_compute. reflexivity. Qed.

Lemma evict_limit3_of_5_witness :
  exists w',
    evict 3 (sample_cfg (Some ZIP_DEFLATED) 3) "alpha" 5 (sample_world five_backups)
    = (Done 2, w')
    /\ folder w' = Some (survivors 3 "alpha" five_backups)
    /\ List.length (backups_of "alpha" (survivors 3 "alpha" five_backups)) = 2%nat.
Proof.
  apply (evict_limit3_of_5 3 (sample_cfg (Some ZIP_DEFLATED) 3) "alpha" five_backups
           (sample_world five_backups));
    [reflexivity | reflexivity | reflexivity | reflexivity | lia].
Defined.

(** C1, as stated, fails: with limit 3, count 5 and five archive files
    stamped 30, 10, 50, 20, 40, eviction deletes three entries, the one
    stamped 30 (third newest) among them, and two are left. *)
Lemma evict_limit3_of_5_counterexample :
  fst (evict 5 (sample_cfg (Some ZIP_DEFLATED) 3) "alpha" 5 (sample_world five_backups))
  = Done 2
  /\ option_map (map e_name)
       (folder (snd (evict 5 (sample_cfg (Some ZIP_DEFLATED) 3) "alpha" 5
                       (sample_world five_backups))))
     = Some ["alpha_bak2.zip"; "alpha_bak4.zip"]
  /\ stdout (snd (evict 5 (sample_cfg (Some ZIP_DEFLATED) 3) "alpha" 5
                    (sample_world five_backups)))
     = [LIMIT_REACHED "alpha_bak1.zip"; LIMIT_REACHED "alpha_bak3.zip";
        LIMIT_REACHED "alpha_bak0.zip"].
Proof. repeat split; vm_compute; reflexivity. Qed.

(* ================================================================= *)
(** ** Termination of eviction *)

Lemma find_earliest_any save w :
  exists r, find_earliest save w = (r, w) /\ r <> OutOfFuel.
Proof.
  destruct (folder w) as [es |] eqn:Hf.
  - destruct (find_earliest_total save es w Hf) as (r & Hr & _).
    exists (Done r). split; [exact Hr | discriminate].
  - exists (Raised FileNotFoundError). split; [| discriminate].
    unfold find_earliest, bind, listdir_backups. now rewrite Hf.
Qed.

(** Deleting never runs out of fuel and announces nothing. *)
Lemma delete_backup_any name w :
  exists r w', delete_backup name w = (r, w')
    /\ r <> OutOfFuel
    /\ announcements (stdout w') = announcements (stdout w).
Proof.
  unfold delete_backup, try_except, bind, isfile_backup, remove_backup,
    rmdir_backup, say, print.
  repeat (destruct_scrutinee; cbn [exn_eqb]);
    eexists; eexists; (split; [reflexivity |]); (split; [discriminate |]);
    cbn [stdout set_folder write_stdout]; rewrite ?announcements_denied; reflexivity.
Qed.

Lemma evict_once_any save total_num w :
  exists r w', evict_once save total_num w = (r, w')
    /\ r <> OutOfFuel
    /\ (forall t, r = Done t -> t = total_num - 1)
    /\ (announcements (stdout w') <= S (announcements (stdout w)))%nat.
Proof.
  unfold evict_once.
  destruct (find_earliest_any save w) as ([[earliest_backup earliest_mod] | e |] & Hr & Hne);
    [| | congruence].
  - rewrite (bind_done _ _ _ _ _ Hr), (bind_done _ _ _ _ _ (say_done _ w)).
    destruct (delete_backup_any earliest_backup
                (write_stdout (LIMIT_REACHED earliest_backup) w))
      as ([[] | e |] & w' & Hd & Hne' & Hann); [| | congruence].
    + rewrite (bind_done _ _ _ _ _ Hd). exists (Done (total_num - 1)), w'.
      split; [reflexivity |]. split; [discriminate |]. split; [now intros t [= <-] |].
      rewrite Hann. cbn [stdout write_stdout]. rewrite announcements_limit. lia.
    + rewrite (bind_raised _ _ _ _ _ Hd). exists (Raised e), w'.
      split; [reflexivity |]. split; [discriminate |]. split; [discriminate |].
      rewrite Hann. cbn [stdout write_stdout]. rewrite announcements_limit. lia.
  - rewrite (bind_raised _ _ _ _ _ Hr). exists (Raised e), w.
    split; [reflexivity |]. split; [discriminate |]. split; [discriminate | lia].
Qed.

(** With [rounds limit total_num] units of fuel or more the loop ends, by
    falling below the limit or by an exception, and each round announces at
    most one deletion. *)
Lemma evict_loop_ends save limit : forall fuel total_num w,
  (rounds limit total_num <= fuel)%nat ->
  fst (evict_loop fuel limit save total_num w) <> OutOfFuel
  /\ evict_loop fuel limit save total_num w
     = evict_loop (rounds limit total_num) limit save total_num w
  /\ (announcements (stdout (snd (evict_loop fuel limit save total_num w)))
      <= announcements (stdout w) + rounds limit total_num)%nat.
Proof.
  unfold rounds.
  induction fuel as [| fuel IH]; intros total_num w Hfuel.
  - assert ((total_num >=? limit) = false) as Hc by (rewrite Z.geb_leb; apply Z.leb_gt; lia).
    replace (Z.to_nat (total_num - limit + 1)) with 0%nat by lia.
    cbn [evict_loop]. rewrite Hc. cbn. split; [discriminate |]. split; [reflexivity | lia].
  - destruct (Z.geb_spec total_num limit) as [Hge | Hlt].
    + assert ((total_num >=? limit) = true) as Hc by (rewrite Z.geb_leb; apply Z.leb_le; lia).
      replace (Z.to_nat (total_num - limit + 1))
        with (S (Z.to_nat (total_num - 1 - limit + 1))) in * by lia.
      cbn [evict_loop]. rewrite Hc.
      destruct (evict_once_any save total_num w) as (r & w1 & Hstep & Hne & Hres & Hann).
      destruct r as [t | e |]; [| | congruence].
      * rewrite !(bind_done _ _ _ _ _ Hstep). rewrite (Hres t eq_refl).
        destruct (IH (total_num - 1) w1) as (H1 & H2 & H3); [lia |].
        split; [exact H1 |]. split; [exact H2 | lia].
      * rewrite !(bind_raised _ _ _ _ _ Hstep). cbn [fst snd].
        split; [discriminate |]. split; [reflexivity | lia].
    + assert ((total_num >=? limit) = false) as Hc by (rewrite Z.geb_leb; apply Z.leb_gt; lia).
      replace (Z.to_nat (total_num - limit + 1)) with 0%nat by lia.
      cbn [evict_loop]. rewrite Hc. cbn. split; [discriminate |]. split; [reflexivity | lia].
Qed.

(** C10.  For a limit of at least 1 the eviction phase terminates: with
    [total_num - LIMIT + 1] units of fuel (none when that is negative), one
    unit per scan-and-delete round, it never runs out of fuel, more fuel
    changes nothing, and it announces at most that many deletions.  The
    reason is that a round either leaves by an exception or ends with the
    count one lower, also when the deletion was refused. *)
Theorem evict_terminates fuel cfg save total_num w :
  1 <= LIMIT cfg ->
  (rounds (LIMIT cfg) total_num <= fuel)%nat ->
  fst (evict fuel cfg save total_num w) <> OutOfFuel
  /\ evict fuel cfg save total_num w
     = evict (rounds (LIMIT cfg) total_num) cfg save total_num w
  /\ (announcements (stdout (snd (evict fuel cfg save total_num w)))
      <= announcements (stdout w) + rounds (LIMIT cfg) total_num)%nat
  /\ (forall n w1 r w2,
        evict_once save n w1 = (r, w2) ->
        r = Done (n - 1) \/ exists e, r = Raised e).
Proof.
  intros Hl Hfuel. unfold evict.
  assert ((LIMIT cfg =? 0) = false) as -> by (apply Z.eqb_neq; lia).
  destruct (evict_loop_ends save (LIMIT cfg) fuel total_num w Hfuel) as (H1 & H2 & H3).
  repeat (split; [assumption |]).
  intros n w1 r w2 Hr.
  destruct (evict_once_any save n w1) as (r' & w' & Hr' & Hne & Hres & _).
  rewrite Hr in Hr'. injection Hr' as <- <-.
  destruct r as [t | e |]; [left | right; now exists e | congruence].
  now rewrite (Hres t eq_refl).
Qed.

Lemma evict_terminates_witness :
  fst (evict 3 (sample_cfg (Some ZIP_DEFLATED) 3) "alpha" 5 (sample_world five_backups))
  <> OutOfFuel
  /\ evict 3 (sample_cfg (Some ZIP_DEFLATED) 3) "alpha" 5 (sample_world five_backups)
     = evict (rounds (LIMIT (sample_cfg (Some ZIP_DEFLATED) 3)) 5)
         (sample_cfg (Some ZIP_DEFLATED) 3) "alpha" 5 (sample_world five_backups)
  /\ (announcements
        (stdout (snd (evict 3 (sample_cfg (Some ZIP_DEFLATED) 3) "alpha" 5
                        (sample_world five_backups))))
      <= announcements (stdout (sample_world five_backups))
         + rounds (LIMIT (sample_cfg (Some ZIP_DEFLATED) 3)) 5)%nat
  /\ (forall n w1 r w2,
        evict_once "alpha" n w1 = (r, w2) ->
        r = Done (n - 1) \/ exists e, r = Raised e).
Proof.
  apply (evict_terminates 3 (sample_cfg (Some ZIP_DEFLATED) 3) "alpha" 5
           (sample_world five_backups)); [simpl; lia | unfold rounds; simpl; lia].
Defined.

(* ================================================================= *)
(** ** Eviction when deleting is refused *)

Lemma belongs_nonempty save name :
  save <> "" -> belongs save name = true -> name <> "".
Proof.
  intros Hs Hb ->. destruct save; [congruence | discriminate].
Qed.

Lemma for_each_consider_hit save es w :
  folder w = Some es ->
  forall l acc,
    incl l (map e_name es) ->
    snd acc = 0 ->
    (exists n, In n l /\ belongs save n = true) ->
    exists r,
      for_each l (consider_backup save) acc w = (Done r, w)
      /\ In (fst r) l /\ belongs save (fst r) = true.
Proof.
  intros Hf. induction l as [| n l IH]; intros acc Hincl Hacc [x [Hx Hbx]];
    [contradiction |].
  assert (In n (map e_name es)) as Hn by (apply Hincl; now left).
  assert (incl l (map e_name es)) as Hl by (intros y Hy; apply Hincl; now right).
  cbn [for_each]. unfold bind. unfold consider_backup at 1.
  destruct acc as [earliest_backup earliest_mod]. cbn [snd] in Hacc. subst earliest_mod.
  destruct (belongs save n) eqn:Hb.
  - unfold bind, getmtime_backup. rewrite Hf.
    destruct (lookup_names n es Hn) as [e He]. rewrite He. cbn [Z.eqb orb]. unfold ret.
    destruct (for_each_consider_total save es w Hf l (n, e_mtime e) Hl)
      as (r & Hr & Hor).
    exists r. split; [exact Hr |].
    destruct Hor as [-> | [Hin Hbr]]; cbn [fst].
    + split; [now left | exact Hb].
    + split; [now right | exact Hbr].
  - unfold ret. destruct Hx as [<- | Hx]; [congruence |].
    destruct (IH (earliest_backup, 0) Hl eq_refl) as (r & Hr & Hin & Hbr).
    { now exists x. }
    exists r. split; [exact Hr |]. split; [now right | exact Hbr].
Qed.

Lemma denials_limit out name :
  denials (out ++ [LIMIT_REACHED name]) = denials out.
Proof.
  unfold denials. rewrite filter_app, length_app. cbn. lia.
Qed.

Lemma denials_denied out : denials (out ++ [DELETE_DENIED]) = S (denials out).
Proof.
  unfold denials. rewrite filter_app, length_app. cbn. lia.
Qed.

(** A round whose deletion is refused: the refusal is printed, the folder
    stays as it was, the round ends normally with the count one lower. *)
Lemma evict_once_denied save es w total_num :
  folder w = Some es ->
  save <> "" ->
  backups_of save es <> [] ->
  forallb e_locked (backups_of save es) = true ->
  exists name,
    In name (map e_name es)
    /\ evict_once save total_num w
       = (Done (total_num - 1),
          write_stdout DELETE_DENIED (write_stdout (LIMIT_REACHED name) w)).
Proof.
  intros Hf Hs Hne Hlock.
  assert (exists n, In n (map e_name es) /\ belongs save n = true) as Hex.
  { destruct (backups_of save es) as [| e l] eqn:E; [congruence |].
    assert (In e (backups_of save es)) as He by (rewrite E; now left).
    apply filter_In in He as [He Hb]. exists (e_name e). split; [now apply in_map | exact Hb]. }
  assert (exists r, find_earliest save w = (Done r, w)
                    /\ In (fst r) (map e_name es) /\ belongs save (fst r) = true)
    as ([name t] & Hr & Hin & Hb).
  { unfold find_earliest, bind, listdir_backups. rewrite Hf.
    apply (for_each_consider_hit save es w Hf); [apply incl_refl | reflexivity | exact Hex]. }
  cbn [fst] in Hin, Hb. exists name. split; [exact Hin |].
  destruct (lookup_names name es Hin) as [e He].
  destruct (lookup_name name es e He) as [Hname Hees].
  assert (e_locked e = true) as Hk.
  { rewrite forallb_forall in Hlock. apply Hlock. apply filter_In.
    split; [exact Hees | now rewrite Hname]. }
  unfold evict_once.
  rewrite (bind_done _ _ _ _ _ Hr), (bind_done _ _ _ _ _ (say_done _ w)).
  erewrite bind_done; [reflexivity |].
  apply (delete_backup_locked name es e); auto.
  now apply (belongs_nonempty save).
Qed.

Lemma evict_loop_denied save limit es :
  save <> "" ->
  backups_of save es <> [] ->
  forallb e_locked (backups_of save es) = true ->
  forall k fuel w total_num,
    folder w = Some es ->
    (k <= fuel)%nat ->
    Z.of_nat k = Z.max 0 (total_num - limit + 1) ->
    exists w',
      evict_loop fuel limit save total_num w = (Done (total_num - Z.of_nat k), w')
      /\ folder w' = Some es
      /\ denials (stdout w') = (denials (stdout w) + k)%nat
      /\ announcements (stdout w') = (announcements (stdout w) + k)%nat.
Proof.
  intros Hs Hne Hlock.
  induction k as [| k IH]; intros fuel w total_num Hf Hfuel Hk.
  - exists w. assert ((total_num >=? limit) = false) as Hc
      by (rewrite Z.geb_leb; apply Z.leb_gt; lia).
    split; [| split; [assumption | split; lia]].
    destruct fuel; cbn [evict_loop]; rewrite Hc; unfold ret; do 2 f_equal; lia.
  - assert ((total_num >=? limit) = true) as Hc
      by (rewrite Z.geb_leb; apply Z.leb_le; lia).
    destruct fuel as [| fuel]; [lia |].
    destruct (evict_once_denied save es w total_num Hf Hs Hne Hlock)
      as (name & _ & Hstep).
    destruct (IH fuel
                (write_stdout DELETE_DENIED (write_stdout (LIMIT_REACHED name) w))
                (total_num - 1))
      as (w' & Hrun & Hfw & Hden & Hann); [exact Hf | lia | lia |].
    exists w'. split; [| split; [exact Hfw | split]].
    + cbn [evict_loop]. rewrite Hc, (bind_done _ _ _ _ _ Hstep), Hrun.
      do 2 f_equal. lia.
    + rewrite Hden. cbn [stdout write_stdout].
      rewrite denials_denied, denials_limit. lia.
    + rewrite Hann. cbn [stdout write_stdout].
      rewrite announcements_denied, announcements_limit. lia.
Qed.

(** C9 (as amended).  A refused deletion does not abort eviction: the refusal
    is printed and the loop goes on.  The count goes down by one in every
    round whether or not the deletion succeeded, so when every backup of the
    save refuses deletion the phase still ends normally after
    [total_num - LIMIT + 1] rounds, one refusal printed per round, with the
    count at [LIMIT - 1] and the folder unchanged. *)
Theorem evict_denied fuel cfg save es w total_num :
  folder w = Some es ->
  save <> "" ->
  backups_of save es <> [] ->
  forallb e_locked (backups_of save es) = true ->
  1 <= LIMIT cfg <= total_num ->
  (rounds (LIMIT cfg) total_num <= fuel)%nat ->
  exists w',
    evict fuel cfg save total_num w = (Done (LIMIT cfg - 1), w')
    /\ folder w' = Some es
    /\ denials (stdout w') = (denials (stdout w) + rounds (LIMIT cfg) total_num)%nat
    /\ announcements (stdout w')
       = (announcements (stdout w) + rounds (LIMIT cfg) total_num)%nat.
Proof.
  intros Hf Hs Hne Hlock Hl Hfuel. unfold evict.
  assert ((LIMIT cfg =? 0) = false) as -> by (apply Z.eqb_neq; lia).
  destruct (evict_loop_denied save (LIMIT cfg) es Hs Hne Hlock
              (rounds (LIMIT cfg) total_num) fuel w total_num Hf Hfuel)
    as (w' & Hrun & Hrest).
  { unfold rounds. lia. }
  exists w'. split; [| exact Hrest].
  rewrite Hrun. do 2 f_equal. unfold rounds. lia.
Qed.

Lemma evict_denied_witness :
  exists w',
    evict 2 (sample_cfg (Some ZIP_DEFLATED) 1) "alpha" 2 (sample_world locked_backup)
    = (Done (LIMIT (sample_cfg (Some ZIP_DEFLATED) 1) - 1), w')
    /\ folder w' = Some locked_backup
    /\ denials (stdout w')
       = (denials (stdout (sample_world locked_backup))
          + rounds (LIMIT (sample_cfg (Some ZIP_DEFLATED) 1)) 2)%nat
    /\ announcements (stdout w')
       = (announcements (stdout (sample_world locked_backup))
          + rounds (LIMIT (sample_cfg (Some ZIP_DEFLATED) 1)) 2)%nat.
Proof.
  apply (evict_denied 2 (sample_cfg (Some ZIP_DEFLATED) 1) "alpha" locked_backup
           (sample_world locked_backup) 2);
    [reflexivity | discriminate | discriminate | reflexivity
    | simpl; lia | unfold rounds; simpl; lia].
Defined.

(** C9, as stated, fails: with limit 1, count 1 and one backup whose deletion
    is refused, the phase ends with the count at 0, below the limit, although
    nothing was deleted. *)
Lemma evict_denied_counterexample :
  evict 1 (sample_cfg (Some ZIP_DEFLATED) 1) "alpha" 1 (sample_world locked_backup)
  = (Done 0,
     {| folder := Some locked_backup; folder_readonly := false;
        folder_pinned := false; save := save (sample_world locked_backup);
        clock := 500;
        stdout := [LIMIT_REACHED "alpha_bak0.zip"; DELETE_DENIED] |}).
Proof. vm_compute. reflexivity. Qed.

(* ================================================================= *)
(** ** Which entries count as backups of the save *)

(** The initial scan counts the entries that pass the test [belongs]. *)
Lemma for_each_count save w : forall l acc r w',
  for_each l (count_backup save) acc w = (Done r, w') ->
  w' = w
  /\ snd r = snd acc + Z.of_nat (List.length (filter (belongs save) l)).
Proof.
  induction l as [| n l IH]; intros [backup_num total_num] r w' H.
  - cbn in H. injection H as <- <-. cbn [filter List.length]. split; [reflexivity | lia].
  - cbn [for_each] in H. apply bind_inv in H as (acc' & w1 & Hstep & Hrest).
    unfold count_backup in Hstep. cbn [filter].
    destruct (belongs save n).
    + destruct (rpartition SUFFIX_SEPARATOR n) as [[before sep] after].
      destruct (py_int _) as [v |]; [| discriminate].
      destruct (v >=? backup_num); injection Hstep as <- <-;
        destruct (IH _ _ _ Hrest) as [-> ->]; cbn [snd List.length];
        (split; [reflexivity | lia]).
    + injection Hstep as <- <-. now apply IH.
Qed.

Lemma filter_names (p : string -> bool) (es : list entry) :
  filter p (map e_name es) = map e_name (filter (fun e => p (e_name e)) es).
Proof.
  induction es as [| e es IH]; [reflexivity |].
  cbn [map filter]. destruct (p (e_name e)); cbn [map]; now rewrite IH.
Qed.

(** C5 (as amended).  Both scans associate an entry with the save exactly when
    its name contains the save's name as a substring, anywhere in the name:
    the count of the initial scan is the number of such entries, and the
    entry eviction selects is such an entry, one being selected whenever the
    folder holds one. *)
Theorem belongs_is_substring save :
  (forall name,
      belongs save name = true <-> exists pre post, name = pre +++ save +++ post)
  /\ (forall es w backup_num total_num w',
        folder w = Some es ->
        initial_scan save w = (Done (backup_num, total_num), w') ->
        total_num = Z.of_nat (List.length (backups_of save es)))
  /\ (forall es w,
        folder w = Some es ->
        exists earliest_backup earliest_mod,
          find_earliest save w = (Done (earliest_backup, earliest_mod), w)
          /\ (backups_of save es = [] -> earliest_backup = "")
          /\ (backups_of save es <> [] ->
              In earliest_backup (map e_name es)
              /\ belongs save earliest_backup = true)).
Proof.
  split; [| split].
  - intros name. apply py_in_iff.
  - intros es w backup_num total_num w' Hf H.
    unfold initial_scan, bind, listdir_backups in H. rewrite Hf in H.
    apply for_each_count in H as [_ H]. cbn [snd] in H.
    rewrite H, filter_names, length_map. reflexivity.
  - intros es w Hf.
    destruct (backups_of save es) as [| e l] eqn:E.
      destruct (find_earliest_total save es w Hf) as ([name t] & Hr & Hor).
      exists name, t. split; [exact Hr |]. split; [| congruence].
      intros _. destruct Hor as [[= -> ->] | [Hin Hb]]; [reflexivity |].
      exfalso. cbn [fst] in *. apply in_map_iff in Hin as (x & <- & Hx).
      assert (In x (backups_of save es)) as Hxb by (apply filter_In; now split).
      now rewrite E in Hxb.
    + assert (exists n, In n (map e_name es) /\ belongs save n = true) as Hex.
      { assert (In e (backups_of save es)) as He by (rewrite E; now left).
        apply filter_In in He as [He Hb]. exists (e_name e).
        split; [now apply in_map | exact Hb]. }
      assert (exists r, find_earliest save w = (Done r, w)
                        /\ In (fst r) (map e_name es) /\ belongs save (fst r) = true)
        as ([name t] & Hr & Hin & Hb).
      { unfold find_earliest, bind, listdir_backups. rewrite Hf.
        apply (for_each_consider_hit save es w Hf);
          [apply incl_refl | reflexivity | exact Hex]. }
      exists name, t. split; [exact Hr |]. split; [discriminate |]. intros _. now split.
Qed.

(** C5, as stated, fails: [alpha2_bak3.zip], a backup of the save [alpha2],
    does not begin with [alpha_], and still both scans for the save [alpha]
    take it: the initial scan counts it and eviction selects it. *)
Lemma belongs_counterexample :
  startswith "alpha_" "alpha2_bak3.zip" = false
  /\ initial_scan "alpha" (sample_world neighbour_backup)
     = (Done (4, 1), sample_world neighbour_backup)
  /\ find_earliest "alpha" (sample_world neighbour_backup)
     = (Done ("alpha2_bak3.zip", 10), sample_world neighbour_backup).
Proof. repeat split; vm_compute; reflexivity. Qed.

(* ================================================================= *)
(** ** One backup cycle *)

Lemma isfile_backup_pure name w :
  isfile_backup name w = (Done (is_backup_file w name), w).
Proof.
  unfold isfile_backup, is_backup_file, artifact.
  destruct (folder w) as [es |]; [| reflexivity].
  now destruct (lookup name es).
Qed.

(** The naming loop reads the folder only: it stops at the first number, from
    the one it is given on, whose name is not a regular file. *)
Lemma free_number_inv save ext w : forall fuel n num w',
  free_number fuel save ext n w = (Done num, w') ->
  w' = w
  /\ n <= num
  /\ is_backup_file w (backup_name save num ext) = false
  /\ forall m, n <= m < num -> is_backup_file w (backup_name save m ext) = true.
Proof.
  induction fuel as [| fuel IH]; intros n num w' H; cbn [free_number] in H;
    rewrite (bind_done _ _ _ _ _ (isfile_backup_pure _ w)) in H;
    destruct (is_backup_file w (backup_name save n ext)) eqn:E.
  - discriminate.
  - injection H as <- <-. repeat split; [lia | exact E | intros m Hm; lia].
  - destruct (IH _ _ _ H) as (-> & Hle & Hfree & Hbusy).
    repeat split; [lia | exact Hfree |].
    intros m Hm. destruct (Z.eq_dec m n) as [-> | Hne]; [exact E | apply Hbusy; lia].
  - injection H as <- <-. repeat split; [lia | exact E | intros m Hm; lia].
Qed.

Lemma evict_loop_result save limit : forall fuel total_num w t w',
  evict_loop fuel limit save total_num w = (Done t, w') ->
  t = if total_num >=? limit then limit - 1 else total_num.
Proof.
  induction fuel as [| fuel IH]; intros total_num w t w' H; cbn [evict_loop] in H;
    destruct (Z.geb_spec total_num limit) as [Hge | Hlt].
  - discriminate.
  - now injection H as <- <-.
  - apply bind_inv in H as (t1 & w1 & Hstep & Hrest).
    destruct (evict_once_any save total_num w) as (r & w2 & Hr & _ & Hres & _).
    rewrite Hr in Hstep. injection Hstep as -> ->.
    rewrite (Hres t1 eq_refl) in Hrest. apply IH in Hrest. rewrite Hrest.
    destruct (Z.geb_spec (total_num - 1) limit); lia.
  - now injection H as <- <-.
Qed.

Lemma evict_result fuel cfg save total_num w t w' :
  evict fuel cfg save total_num w = (Done t, w') ->
  t = evicted (LIMIT cfg) total_num.
Proof.
  unfold evict, evicted. destruct (LIMIT cfg =? 0).
  - now intros [= <- <-].
  - apply evict_loop_result.
Qed.

Lemma lookup_snoc name es e :
  lookup name es = None -> e_name e = name -> lookup name (es ++ [e]) = Some e.
Proof.
  intros Hn He. induction es as [| a es IH]; unfold lookup in *; cbn [app find] in *.
  - rewrite He, String.eqb_refl. reflexivity.
  - destruct (String.eqb (e_name a) name); [discriminate | now apply IH].
Qed.

(** A successful archiving step leaves the save and the clock alone and adds
    one entry under the given name: a file stamped with the time of writing
    when zipping, a copy that carries the save's time stamp otherwise. *)
Lemma archive_inv cfg name w w' :
  archive cfg name w = (Done tt, w') ->
  save w' = save w
  /\ clock w' = clock w
  /\ stdout w' = stdout w
  /\ exists e,
       artifact w' name = Some e
       /\ if truthy_method (METHOD cfg)
          then e_mtime e = clock w /\ e_node e = File
          else exists content, save w = Some (e_mtime e, Dir content)
                               /\ e_node e = Dir content.
Proof.
  unfold archive. destruct (truthy_method (METHOD cfg)).
  - unfold write_zip. destruct (folder w) as [es |] eqn:Hf; [| discriminate].
    destruct (lookup name es) eqn:Hl; [discriminate |].
    destruct (folder_readonly w); [discriminate |].
    intros [= <-]. repeat split.
    exists (new_entry name (clock w) File). unfold artifact. cbn [folder set_folder].
    split; [now apply lookup_snoc | now split].
  - unfold try_except, copytree.
    destruct (save w) as [[t [| content]] |] eqn:Hs; try discriminate.
    destruct (lookup name _) eqn:Hl; [discriminate |].
    destruct (folder_readonly w); [discriminate |].
    intros [= <-]. repeat split; [exact Hs |].
    exists (new_entry name t (Dir content)). unfold artifact. cbn [folder set_folder].
    split; [now apply lookup_snoc |]. exists content. now split.
Qed.

(** The steps of a cycle that ends normally. *)
Lemma backup_cycle_inv fuel cfg target st w st' w' :
  backup_cycle fuel cfg target st w = (Done st', w') ->
  exists w1 num w2 t content,
    evict fuel cfg (latest_save target) (total_num st) w
    = (Done (evicted (LIMIT cfg) (total_num st)), w1)
    /\ free_number fuel (latest_save target) (suffix_extension cfg) (backup_num st) w1
       = (Done num, w1)
    /\ archive cfg (backup_name (latest_save target) num (suffix_extension cfg))
         (write_stdout
            (CREATING cfg (latest_playstyle target)
               (backup_name (latest_save target) num (suffix_extension cfg))) w1)
       = (Done tt, w2)
    /\ w' = write_stdout "DONE" w2
    /\ save w' = Some (t, content)
    /\ st' = {| backup_num := num + 1;
                total_num := evicted (LIMIT cfg) (total_num st) + 1;
                last_mod := t;
                current_mod := current_mod st |}.
Proof.
  unfold backup_cycle. intros H.
  apply bind_inv in H as (total & w1 & Hev & H).
  apply bind_inv in H as (num & w1' & Hnum & H).
  destruct (free_number_inv _ _ _ _ _ _ _ Hnum) as (-> & _).
  apply bind_inv in H as ([] & w1s & Hsay & H). injection Hsay as <-.
  apply bind_inv in H as ([] & w2 & Harch & H).
  apply bind_inv in H as ([] & w3 & Hdone & H). injection Hdone as <-.
  apply bind_inv in H as (t & w4 & Hmt & H). injection H as <- <-.
  unfold getmtime_save in Hmt.
  destruct (save (write_stdout "DONE" w2)) as [[t' content] |] eqn:Hs; [| discriminate].
  injection Hmt as <- <-.
  pose proof (evict_result _ _ _ _ _ _ _ Hev) as ->.
  exists w1, num, w2, t', content.
  split; [exact Hev |]. split; [exact Hnum |]. split; [exact Harch |].
  split; [reflexivity |]. split; [exact Hs | reflexivity].
Qed.

(** C7 (as amended).  After every archiving step that succeeds, the baseline
    [last_mod] is the time stamp of the save directory, read right after the
    backup was made; it is not read from the backup: an archive file bears
    the time of its writing, and only a plain copy carries the save's time
    stamp.  The count is the count eviction left plus one, and the sequence
    number is the number the new backup was named with plus one. *)
Theorem backup_cycle_update fuel cfg target st w st' w' :
  backup_cycle fuel cfg target st w = (Done st', w') ->
  exists w1 num content e,
    evict fuel cfg (latest_save target) (total_num st) w
    = (Done (evicted (LIMIT cfg) (total_num st)), w1)
    /\ free_number fuel (latest_save target) (suffix_extension cfg) (backup_num st) w1
       = (Done num, w1)
    /\ total_num st' = evicted (LIMIT cfg) (total_num st) + 1
    /\ backup_num st' = num + 1
    /\ save w' = Some (last_mod st', content)
    /\ artifact w' (backup_name (latest_save target) num (suffix_extension cfg))
       = Some e
    /\ e_mtime e = if truthy_method (METHOD cfg) then clock w' else last_mod st'.
Proof.
  intros H.
  destruct (backup_cycle_inv _ _ _ _ _ _ _ H)
    as (w1 & num & w2 & t & content & Hev & Hnum & Harch & -> & Hs & ->).
  destruct (archive_inv _ _ _ _ Harch) as (Hsave & Hclock & _ & e & He & Hkind).
  exists w1, num, content, e. cbn [total_num backup_num last_mod].
  split; [exact Hev |]. split; [exact Hnum |]. split; [reflexivity |].
  split; [reflexivity |]. split; [exact Hs |]. split; [exact He |].
  cbn [save clock write_stdout] in *.
  destruct (truthy_method (METHOD cfg)).
  - destruct Hkind as [-> _]. now rewrite Hclock.
  - destruct Hkind as (content' & Hs' & _). rewrite Hsave, Hs' in Hs. now injection Hs.
Qed.

Lemma backup_cycle_update_witness :
  exists w1 num content e,
    evict 5 zip_cfg (latest_save alpha_target) 0 (sample_world [])
    = (Done (evicted (LIMIT zip_cfg) 0), w1)
    /\ free_number 5 (latest_save alpha_target) (suffix_extension zip_cfg) 0 w1
       = (Done num, w1)
    /\ total_num {| backup_num := 1; total_num := 1; last_mod := 100; current_mod := 1 |}
       = evicted (LIMIT zip_cfg) 0 + 1
    /\ backup_num {| backup_num := 1; total_num := 1; last_mod := 100; current_mod := 1 |}
       = num + 1
    /\ save (snd first_cycle)
       = Some (last_mod {| backup_num := 1; total_num := 1; last_mod := 100;
                           current_mod := 1 |}, content)
    /\ artifact (snd first_cycle)
         (backup_name (latest_save alpha_target) num (suffix_extension zip_cfg))
       = Some e
    /\ e_mtime e = if truthy_method (METHOD zip_cfg) then clock (snd first_cycle)
                   else last_mod {| backup_num := 1; total_num := 1; last_mod := 100;
                                    current_mod := 1 |}.
Proof.
  apply (backup_cycle_update 5 zip_cfg alpha_target
           {| backup_num := 0; total_num := 0; last_mod := 0; current_mod := 1 |}
           (sample_world [])
           {| backup_num := 1; total_num := 1; last_mod := 100; current_mod := 1 |}
           (snd first_cycle)).
  vm_compute. reflexivity.
Defined.

(** C7, as stated, fails: the first zipped backup of a save stamped 100, made
    when the clock shows 500, leaves [last_mod] at 100 while the archive it
    produced is stamped 500. *)
Lemma backup_cycle_update_counterexample :
  fst first_cycle
  = Done {| backup_num := 1; total_num := 1; last_mod := 100; current_mod := 1 |}
  /\ option_map e_mtime (artifact (snd first_cycle) "alpha_bak0.zip") = Some 500.
Proof. split; vm_compute; reflexivity. Qed.

(** C6 (as amended).  The folder is scanned for the sequence number and the
    count once, before the loop.  In a cycle the count used is the one kept in
    memory, lowered by eviction by arithmetic alone, and the sequence number
    is the one kept in memory, moved forward only past names that are regular
    files of the folder at that moment; both are then raised by one. *)
Theorem backup_cycle_in_memory fuel cfg target st w st' w' :
  backup_cycle fuel cfg target st w = (Done st', w') ->
  total_num st' = evicted (LIMIT cfg) (total_num st) + 1
  /\ exists w1 num,
       evict fuel cfg (latest_save target) (total_num st) w
       = (Done (evicted (LIMIT cfg) (total_num st)), w1)
       /\ backup_num st' = num + 1
       /\ backup_num st <= num
       /\ is_backup_file w1
            (backup_name (latest_save target) num (suffix_extension cfg)) = false
       /\ forall m, backup_num st <= m < num ->
            is_backup_file w1
              (backup_name (latest_save target) m (suffix_extension cfg)) = true.
Proof.
  intros H.
  destruct (backup_cycle_inv _ _ _ _ _ _ _ H)
    as (w1 & num & w2 & t & content & Hev & Hnum & _ & _ & _ & ->).
  split; [reflexivity |]. exists w1, num.
  destruct (free_number_inv _ _ _ _ _ _ _ Hnum) as (_ & Hle & Hfree & Hbusy).
  cbn [backup_num]. repeat split; assumption.
Qed.

Lemma backup_cycle_in_memory_witness :
  total_num {| backup_num := 2; total_num := 2; last_mod := 200; current_mod := 200 |}
  = evicted (LIMIT zip_cfg) 1 + 1
  /\ exists w1 num,
       evict 5 zip_cfg (latest_save alpha_target) 1 emptied_world
       = (Done (evicted (LIMIT zip_cfg) 1), w1)
       /\ backup_num {| backup_num := 2; total_num := 2; last_mod := 200;
                        current_mod := 200 |} = num + 1
       /\ 1 <= num
       /\ is_backup_file w1
            (backup_name (latest_save alpha_target) num (suffix_extension zip_cfg))
          = false
       /\ forall m, 1 <= m < num ->
            is_backup_file w1
              (backup_name (latest_save alpha_target) m (suffix_extension zip_cfg))
            = true.
Proof.
  apply (backup_cycle_in_memory 5 zip_cfg alpha_target
           {| backup_num := 1; total_num := 1; last_mod := 100; current_mod := 200 |}
           emptied_world
           {| backup_num := 2; total_num := 2; last_mod := 200; current_mod := 200 |}
           (snd (backup_cycle 5 zip_cfg alpha_target
                   {| backup_num := 1; total_num := 1; last_mod := 100;
                      current_mod := 200 |} emptied_world))).
  vm_compute. reflexivity.
Defined.

(** C6, as stated, fails: after a first backup the user empties the folder
    during the sleep.  A scan of the folder at that moment gives number 0 and
    count 0; the second cycle goes on from the values in memory, names its
    backup with number 1 and leaves the count at 2. *)
Lemma backup_cycle_in_memory_counterexample :
  fst first_cycle
  = Done {| backup_num := 1; total_num := 1; last_mod := 100; current_mod := 1 |}
  /\ initial_scan "alpha" emptied_world = (Done (0, 0), emptied_world)
  /\ fst (backup_cycle 5 zip_cfg alpha_target
            {| backup_num := 1; total_num := 1; last_mod := 100; current_mod := 200 |}
            emptied_world)
     = Done {| backup_num := 2; total_num := 2; last_mod := 200; current_mod := 200 |}
  /\ option_map (map e_name)
       (folder (snd (backup_cycle 5 zip_cfg alpha_target
                       {| backup_num := 1; total_num := 1; last_mod := 100;
                          current_mod := 200 |} emptied_world)))
     = Some ["alpha_bak1.zip"].
Proof. repeat split; vm_compute; reflexivity. Qed.

(* ================================================================= *)
(** ** Runs on sample data *)


(** The save chosen among [two_playstyles]: [beta] of [Survival], the first
    met of the two saves stamped 300; [save_backups], stamped 400, is
    skipped. *)
Example locate_two_playstyles :
  locate_save zip_cfg (Listed two_playstyles) []
  = (Done {| latest_playstyle := "Survival"; latest_save := "beta";
             latest_modified := 300 |}, []).
Proof. reflexivity. Qed.




(** C8, at its failing input: eviction of a plain copy that is not empty.
    [os.rmdir] refuses a directory with content; the error is no
    [PermissionError], so it leaves the loop and the script, and the copy
    stays in the folder. *)
Lemma evict_copy_not_removed :
  evict 1 (sample_cfg None 1) "alpha" 1 (sample_world copied_backup)
  = (Raised DirectoryNotEmpty,
     {| folder := Some copied_backup; folder_readonly := false;
        folder_pinned := false; save := save (sample_world copied_backup);
        clock := 500; stdout := [LIMIT_REACHED "alpha_bak0"] |}).
Proof. vm_compute. reflexivity. Qed.

(** The other half of C8 holds: an archive file that may be removed is
    removed, and so is a copy that happens to be empty. *)
Lemma delete_backup_removes name es e w :
  folder w = Some es ->
  lookup name es = Some e ->
  name <> "" ->
  e_locked e = false ->
  e_node e = File \/ e_node e = Dir [] ->
  delete_backup name w = (Done tt, set_folder (Some (unlink name es)) w).
Proof.
  intros Hf Hl Hne Hk [Hn | Hn]; [now apply (delete_backup_file name es e) |].
  apply String.eqb_neq in Hne.
  unfold delete_backup, try_except, bind, isfile_backup.
  rewrite Hf, Hl, Hn. cbn [is_file]. unfold rmdir_backup.
  now rewrite Hf, Hne, Hl, Hk, Hn.
Qed.

(** C2, at its failing input: a run that copies the save (method "NONE").
    During the sleep after the first backup the user puts a directory named
    [alpha_bak1] into the backup folder.  The naming loop asks
    [os.path.isfile], which is false for a directory, so number 1 is kept,
    and [shutil.copytree] then fails on the existing name. *)
Lemma run_name_collision :
  free_number 5 "alpha" "" 1
    (sample_world [new_entry "alpha_bak0" 100 (Dir []);
                   new_entry "alpha_bak1" 150 (Dir [])])
  = (Done 1,
     sample_world [new_entry "alpha_bak0" 100 (Dir []);
                   new_entry "alpha_bak1" 150 (Dir [])])
  /\ fst (zombisave 5 (sample_cfg None 0) sample_root [Wake user_adds_directory]
            fresh_world)
     = Raised FileExistsError
  /\ option_map (map e_name)
       (folder (snd (zombisave 5 (sample_cfg None 0) sample_root
                       [Wake user_adds_directory] fresh_world)))
     = Some ["alpha_bak0"; "alpha_bak1"].
Proof. repeat split; vm_compute; reflexivity. Qed.

(** When the name taken is a regular file the loop does move on. *)
Example free_number_skips_file :
  fst (free_number 5 "alpha" ".zip" 1
         (sample_world [new_entry "alpha_bak1.zip" 150 File]))
  = Done 2.
Proof. vm_compute. reflexivity. Qed.

(** A whole run: the save changes once between two checks; the script makes
    two backups and stops at the next check. *)
Example run_two_backups :
  fst (zombisave 5 zip_cfg sample_root [Wake (touch_save 200); Wake (fun w => w)]
         fresh_world)
  = Done {| backup_num := 2; total_num := 2; last_mod := 200; current_mod := 200 |}
  /\ option_map (map e_name)
       (folder (snd (zombisave 5 zip_cfg sample_root
                       [Wake (touch_save 200); Wake (fun w => w)] fresh_world)))
     = Some ["alpha_bak0.zip"; "alpha_bak1.zip"].
Proof. split; vm_compute; reflexivity. Qed.

(** With method "STORED" the constant [ZIP_STORED] is [0], which Python
    takes for false: the save is copied, not zipped. *)
Example stored_copies :
  option_map (map e_node)
    (folder (snd (backup_cycle 5 (sample_cfg (Some ZIP_STORED) 0) alpha_target
                    {| backup_num := 0; total_num := 0; last_mod := 0;
                       current_mod := 1 |} (sample_world []))))
  = Some [Dir [("map_0_0.bin", File)]].
Proof. vm_compute. reflexivity. Qed.
Example py_in_ex : py_in "alpha" "my_alpha_bak0.zip" = true /\ py_in "alpha" "alfa_bak0" = false.
Proof. split; reflexivity. Qed.

Example rpartition_ex :
  rpartition "_"%char "my_save_bak12.zip" = ("my_save", "_", "bak12.zip")
  /\ rpartition "_"%char "plain" = ("", "", "plain").
Proof. split; reflexivity. Qed.

Example strip_affixes_ex :
  removesuffix ".zip" (removeprefix "bak" "bak12.zip") = "12"
  /\ removesuffix ".zip" (removeprefix "bak" "12") = "12".
Proof. split; reflexivity. Qed.

Example py_int_ex :
  py_int "12" = Some 12 /\ py_int " +7 " = Some 7 /\ py_int "-3" = Some (-3)
  /\ py_int "" = None /\ py_int "1a" = None /\ py_int "-" = None.
Proof. repeat split; reflexivity. Qed.

Example py_str_ex : py_str 0 = "0" /\ py_str 42 = "42" /\ py_str (-5) = "-5".
Proof. repeat split; reflexivity. Qed.

(* ================================================================= *)
(** ** Further properties of eviction and of the initial scan *)

(** Without a limit eviction does nothing, whatever the count and the
    folder. *)
Theorem evict_unlimited fuel cfg save total_num w :
  LIMIT cfg = 0 ->
  evict fuel cfg save total_num w = (Done total_num, w).
Proof. intros H. unfold evict. now rewrite H. Qed.

Lemma evict_unlimited_witness :
  evict 0 zip_cfg "alpha" 5 (sample_world five_backups)
  = (Done 5, sample_world five_backups).
Proof.
  apply (evict_unlimited 0 zip_cfg "alpha" 5 (sample_world five_backups)).
  reflexivity.
Defined.

(** On a tidy folder that holds enough backups of the save, eviction from a
    count at or above the limit deletes exactly the
    [total_num - LIMIT + 1] oldest backups and returns [LIMIT - 1]. *)
Theorem evict_oldest fuel cfg save es w total_num :
  folder w = Some es ->
  tidy save es = true ->
  1 <= LIMIT cfg <= total_num ->
  (rounds (LIMIT cfg) total_num <= List.length (backups_of save es))%nat ->
  (rounds (LIMIT cfg) total_num <= fuel)%nat ->
  exists w',
    evict fuel cfg save total_num w = (Done (LIMIT cfg - 1), w')
    /\ folder w' = Some (survivors (rounds (LIMIT cfg) total_num) save es)
    /\ (List.length
          (backups_of save (survivors (rounds (LIMIT cfg) total_num) save es))
        + rounds (LIMIT cfg) total_num
        = List.length (backups_of save es))%nat
    /\ announcements (stdout w')
       = (announcements (stdout w) + rounds (LIMIT cfg) total_num)%nat.
Proof.
  intros Hf Ht Hl Hlen Hfuel. unfold evict.
  assert ((LIMIT cfg =? 0) = false) as -> by (apply Z.eqb_neq; lia).
  destruct (evict_loop_oldest save (LIMIT cfg) (rounds (LIMIT cfg) total_num)
              fuel es w total_num Hf Ht Hlen Hfuel)
    as (w' & Hrun & Hrest).
  { unfold rounds. lia. }
  exists w'. split; [| exact Hrest].
  rewrite Hrun. do 2 f_equal. unfold rounds. lia.
Qed.

Lemma evict_oldest_witness :
  exists w',
    evict 4 (sample_cfg (Some ZIP_DEFLATED) 2) "alpha" 5 (sample_world five_backups)
    = (Done (LIMIT (sample_cfg (Some ZIP_DEFLATED) 2) - 1), w')
    /\ folder w'
       = Some (survivors (rounds (LIMIT (sample_cfg (Some ZIP_DEFLATED) 2)) 5)
                 "alpha" five_backups)
    /\ (List.length
          (backups_of "alpha"
             (survivors (rounds (LIMIT (sample_cfg (Some ZIP_DEFLATED) 2)) 5)
                "alpha" five_backups))
        + rounds (LIMIT (sample_cfg (Some ZIP_DEFLATED) 2)) 5
        = List.length (backups_of "alpha" five_backups))%nat
    /\ announcements (stdout w')
       = (announcements (stdout (sample_world five_backups))
          + rounds (LIMIT (sample_cfg (Some ZIP_DEFLATED) 2)) 5)%nat.
Proof.
  apply (evict_oldest 4 (sample_cfg (Some ZIP_DEFLATED) 2) "alpha" five_backups
           (sample_world five_backups) 5);
    [reflexivity | reflexivity | simpl; lia
    | unfold rounds; simpl; lia | unfold rounds; simpl; lia].
Defined.

(** The initial scan, when no name fails to parse: the number it returns is
    not negative and lies above the sequence number of every backup of the
    save; it is [0], or one more than the sequence number of such a backup. *)
Lemma for_each_count_numbers save w : forall l acc r w',
  for_each l (count_backup save) acc w = (Done r, w') ->
  fst acc <= fst r
  /\ (forall n, In n l -> belongs save n = true ->
        exists v, sequence_number n = Some v /\ v < fst r)
  /\ (fst r = fst acc
      \/ exists n, In n l /\ belongs save n = true
                   /\ sequence_number n = Some (fst r - 1)).
Proof.
  induction l as [| n l IH]; intros [backup_num total_num] r w' H.
  - cbn in H. injection H as <- <-. cbn [fst].
    split; [lia |]. split; [intros n [] | now left].
  - cbn [for_each] in H. apply bind_inv in H as (acc' & w1 & Hstep & Hrest).
    unfold count_backup in Hstep.
    destruct (belongs save n) eqn:Hb.
    + assert (Hseq : sequence_number n
                     = let '(_, _, after) := rpartition SUFFIX_SEPARATOR n in
                       py_int (removesuffix ".zip" (removeprefix SUFFIX_BEGIN after)))
        by reflexivity.
      destruct (rpartition SUFFIX_SEPARATOR n) as [[before sep] after].
      destruct (py_int _) as [v |]; [| discriminate].
      destruct (Z.geb_spec v backup_num) as [Hge | Hlt]; injection Hstep as <- <-;
        destruct (IH _ _ _ Hrest) as (Hle & Hall & Hor); cbn [fst] in *.
      * split; [lia |]. split.
        -- intros m [<- | Hm] Hbm; [exists v; split; [exact Hseq | lia] | now apply Hall].
        -- right. destruct Hor as [-> | (m & Hm & Hbm & Hsm)].
           ++ exists n. split; [now left |]. split; [exact Hb |].
              rewrite Hseq. f_equal. lia.
           ++ exists m. split; [now right | now split].
      * split; [lia |]. split.
        -- intros m [<- | Hm] Hbm; [exists v; split; [exact Hseq | lia] | now apply Hall].
        -- destruct Hor as [-> | (m & Hm & Hbm & Hsm)]; [now left | right].
           exists m. split; [now right | now split].
    + injection Hstep as <- <-. destruct (IH _ _ _ Hrest) as (Hle & Hall & Hor).
      cbn [fst] in *. split; [exact Hle |]. split.
      * intros m [<- | Hm] Hbm; [congruence | now apply Hall].
      * destruct Hor as [-> | (m & Hm & Hbm & Hsm)]; [now left | right].
        exists m. split; [now right | now split].
Qed.

Theorem initial_scan_numbers save es w backup_num total_num w' :
  folder w = Some es ->
  initial_scan save w = (Done (backup_num, total_num), w') ->
  w' = w
  /\ total_num = Z.of_nat (List.length (backups_of save es))
  /\ 0 <= backup_num
  /\ (forall e, In e (backups_of save es) ->
        exists v, sequence_number (e_name e) = Some v /\ v < backup_num)
  /\ (backup_num = 0
      \/ exists e, In e (backups_of save es)
                   /\ sequence_number (e_name e) = Some (backup_num - 1)).
Proof.
  intros Hf H. unfold initial_scan, bind, listdir_backups in H. rewrite Hf in H.
  destruct (for_each_count _ _ _ _ _ _ H) as [-> Hcount].
  destruct (for_each_count_numbers _ _ _ _ _ _ H) as (Hle & Hall & Hor).
  cbn [fst snd] in *.
  split; [reflexivity |]. split.
  { rewrite Hcount, filter_names, length_map. reflexivity. }
  split; [exact Hle |]. split.
  - intros e He. apply filter_In in He as [He Hb]. apply Hall; [| exact Hb].
    now apply in_map.
  - destruct Hor as [-> | (n & Hn & Hb & Hs)]; [now left | right].
    apply in_map_iff in Hn as (e & <- & He). exists e.
    split; [apply filter_In; now split | exact Hs].
Qed.

Lemma initial_scan_numbers_witness :
  sample_world five_backups = sample_world five_backups
  /\ 5 = Z.of_nat (List.length (backups_of "alpha" five_backups))
  /\ 0 <= 5
  /\ (forall e, In e (backups_of "alpha" five_backups) ->
        exists v, sequence_number (e_name e) = Some v /\ v < 5)
  /\ (5 = 0
      \/ exists e, In e (backups_of "alpha" five_backups)
                   /\ sequence_number (e_name e) = Some (5 - 1)).
Proof.
  apply (initial_scan_numbers "alpha" five_backups (sample_world five_backups) 5 5
           (sample_world five_backups)); reflexivity.
Defined.

(** The example of the specification: with [alpha_bak0.zip] and
    [alpha_bak3.zip] in the folder the next number is 4 and the count 2; an
    empty folder gives number 0. *)
Example initial_scan_examples :
  fst (initial_scan "alpha"
         (sample_world [new_entry "alpha_bak0.zip" 10 File;
                        new_entry "alpha_bak3.zip" 20 File]))
  = Done (4, 2)
  /\ fst (initial_scan "alpha" (sample_world [])) = Done (0, 0)
  /\ fst (initial_scan "alpha" (sample_world [new_entry "alpha_notes.txt" 10 File]))
     = Raised ValueError.
Proof. repeat split; vm_compute; reflexivity. Qed.

(* ================================================================= *)
(** ** The naming loop ends *)

Lemma append_inj_l p a b : p +++ a = p +++ b -> a = b.
Proof.
  induction p as [| c p IH]; cbn [String.append]; intros H; [exact H |].
  injection H as H. now apply IH.
Qed.

Lemma length_append a b :
  String.length (a +++ b) = (String.length a + String.length b)%nat.
Proof.
  induction a as [| c a IH]; cbn [String.append String.length]; [reflexivity |].
  now rewrite IH.
Qed.

Lemma append_inj_r x : forall a b, a +++ x = b +++ x -> a = b.
Proof.
  induction a as [| c a IH]; intros [| d b] H; cbn [String.append] in H.
  - reflexivity.
  - exfalso. apply (f_equal String.length) in H.
    cbn [String.length] in H. rewrite length_append in H. lia.
  - exfalso. apply (f_equal String.length) in H.
    cbn [String.length] in H. rewrite length_append in H. lia.
  - injection H as -> H. f_equal. now apply IH.
Qed.

Lemma to_int_proper z : Z.to_int z <> Decimal.Pos Decimal.Nil
                        /\ Z.to_int z <> Decimal.Neg Decimal.Nil.
Proof.
  pose proof (DecimalZ.to_of (Z.to_int z)) as H. rewrite DecimalZ.of_to in H.
  destruct (Z.to_int z) as [d | d]; unfold Decimal.norm in H.
  - split; [| discriminate]. intros [= ->]. discriminate.
  - split; [discriminate |]. intros [= ->]. discriminate.
Qed.

Lemma py_str_inj n m : py_str n = py_str m -> n = m.
Proof.
  unfold py_str. intros H. apply DecimalZ.to_int_inj.
  destruct (to_int_proper n) as [Hn1 Hn2], (to_int_proper m) as [Hm1 Hm2].
  pose proof (NilZero.isi _ Hn1 Hn2) as Hn. pose proof (NilZero.isi _ Hm1 Hm2) as Hm.
  rewrite H in Hn. rewrite Hn in Hm. now injection Hm.
Qed.

Lemma backup_name_inj save ext n m :
  backup_name save n ext = backup_name save m ext -> n = m.
Proof.
  unfold backup_name. intros H.
  apply append_inj_l, append_inj_l, append_inj_l, append_inj_r in H.
  now apply py_str_inj.
Qed.

Lemma forallb_false_exists {A} (p : A -> bool) (l : list A) :
  forallb p l = false -> exists x, In x l /\ p x = false.
Proof.
  induction l as [| a l IH]; [discriminate |]. cbn [forallb].
  destruct (p a) eqn:E.
  - intros H. destruct (IH H) as (x & Hx & Hp). exists x. split; [now right | exact Hp].
  - intros _. exists a. split; [now left | exact E].
Qed.

(** Among [folder_size w + 1] numbers in a row one names no regular file:
    their names differ, and the folder has no room for all of them. *)
Lemma free_number_exists save ext n w :
  exists num,
    n <= num <= n + Z.of_nat (folder_size w)
    /\ is_backup_file w (backup_name save num ext) = false.
Proof.
  set (k := folder_size w).
  set (nums := map (fun i => n + Z.of_nat i) (seq 0 (S k))).
  destruct (forallb (fun m => is_backup_file w (backup_name save m ext)) nums) eqn:E.
  - exfalso. rewrite forallb_forall in E.
    unfold folder_size in k. unfold is_backup_file, artifact in E.
    destruct (folder w) as [es |].
    + assert (NoDup (map (fun m => backup_name save m ext) nums)) as Hnd.
      { apply Injective_map_NoDup.
        - intros a b. apply backup_name_inj.
        - apply Injective_map_NoDup; [| apply seq_NoDup].
          intros a b Hab. lia. }
      assert (incl (map (fun m => backup_name save m ext) nums) (map e_name es)) as Hincl.
      { intros name Hname. apply in_map_iff in Hname as (m & <- & Hm).
        specialize (E m Hm). destruct (lookup _ es) as [e |] eqn:Hl; [| discriminate].
        apply lookup_name in Hl as [<- He]. now apply in_map. }
      pose proof (NoDup_incl_length Hnd Hincl) as Hlen.
      unfold nums in Hlen. rewrite !length_map, length_seq in Hlen. lia.
    + specialize (E n). cbn in E. assert (false = true) by (apply E; left; lia).
      discriminate.
  - apply forallb_false_exists in E as (m & Hm & Hfree). exists m. split; [| exact Hfree].
    unfold nums in Hm. apply in_map_iff in Hm as (i & <- & Hi). apply in_seq in Hi. lia.
Qed.

Lemma free_number_finds save ext w : forall fuel n,
  (exists num, n <= num <= n + Z.of_nat fuel
               /\ is_backup_file w (backup_name save num ext) = false) ->
  exists num, free_number fuel save ext n w = (Done num, w).
Proof.
  induction fuel as [| fuel IH]; intros n (num & Hrange & Hfree); cbn [free_number];
    rewrite (bind_done _ _ _ _ _ (isfile_backup_pure _ w));
    destruct (is_backup_file w (backup_name save n ext)) eqn:E;
    try (now exists n).
  - replace num with n in Hfree by lia. congruence.
  - apply IH. exists num. split; [| exact Hfree].
    assert (num <> n) by (intros ->; congruence). lia.
Qed.

(** The naming loop terminates: with as many units of fuel as the folder has
    entries it returns a number, at most that far above the one it was given,
    whose name is no regular file of the folder; the numbers it passed over
    all name regular files. *)
Theorem free_number_total fuel save ext n w :
  (folder_size w <= fuel)%nat ->
  exists num,
    free_number fuel save ext n w = (Done num, w)
    /\ n <= num <= n + Z.of_nat (folder_size w)
    /\ is_backup_file w (backup_name save num ext) = false
    /\ forall m, n <= m < num ->
         is_backup_file w (backup_name save m ext) = true.
Proof.
  intros Hfuel. destruct (free_number_exists save ext n w) as (num0 & Hrange & Hfree0).
  destruct (free_number_finds save ext w fuel n) as (num & Hrun).
  { exists num0. split; [lia | exact Hfree0]. }
  exists num. destruct (free_number_inv _ _ _ _ _ _ _ Hrun) as (_ & Hle & Hfree & Hbusy).
  split; [exact Hrun |]. split; [| split; assumption].
  split; [exact Hle |].
  destruct (Z.le_gt_cases num num0) as [| Hgt]; [lia |].
  rewrite (Hbusy num0) in Hfree0 by lia. discriminate.
Qed.

Lemma free_number_total_witness :
  exists num,
    free_number 5 "alpha" ".zip" 0 (sample_world five_backups)
    = (Done num, sample_world five_backups)
    /\ 0 <= num <= 0 + Z.of_nat (folder_size (sample_world five_backups))
    /\ is_backup_file (sample_world five_backups) (backup_name "alpha" num ".zip")
       = false
    /\ forall m, 0 <= m < num ->
         is_backup_file (sample_world five_backups) (backup_name "alpha" m ".zip")
         = true.
Proof.
  apply (free_number_total 5 "alpha" ".zip" 0 (sample_world five_backups)).
  unfold folder_size, sample_world, five_backups. cbn. lia.
Defined.

Lemma delete_backup_removes_witness :
  delete_backup "alpha_bak1.zip" (sample_world five_backups)
  = (Done tt,
     set_folder (Some (unlink "alpha_bak1.zip" five_backups))
       (sample_world five_backups)).
Proof.
  apply (delete_backup_removes "alpha_bak1.zip" five_backups
           (new_entry "alpha_bak1.zip" 10 File) (sample_world five_backups));
    [reflexivity | reflexivity | discriminate | reflexivity | left; reflexivity].
Defined.

(* ================================================================= *)
(** ** Names of backups and the numbers read off them *)

Lemma all_chars_append p a b :
  all_chars p (a +++ b) = all_chars p a && all_chars p b.
Proof.
  induction a as [| c a IH]; cbn [String.append all_chars]; [reflexivity |].
  now rewrite IH, andb_assoc.
Qed.

Lemma all_chars_impl (p q : ascii -> bool) s :
  (forall c, p c = true -> q c = true) ->
  all_chars p s = true -> all_chars q s = true.
Proof.
  intros Hpq. induction s as [| c s IH]; cbn [all_chars]; [reflexivity |].
  intros H. apply andb_prop in H as [Hc Hs]. now rewrite (Hpq c Hc), IH.
Qed.

Lemma all_chars_drop p s : forall k,
  all_chars p s = true -> all_chars p (drop k s) = true.
Proof.
  induction s as [| c s IH]; intros [| k] H; cbn [drop]; try assumption.
  cbn [all_chars] in H. apply andb_prop in H as [_ H]. now apply IH.
Qed.

Lemma rsplit_last_none sep s :
  all_chars (fun c => negb (Ascii.eqb c sep)) s = true -> rsplit_last sep s = None.
Proof.
  induction s as [| c s IH]; cbn [all_chars rsplit_last]; [reflexivity |].
  intros H. apply andb_prop in H as [Hc Hs]. rewrite (IH Hs).
  apply negb_true_iff in Hc. now rewrite Hc.
Qed.

Lemma rsplit_last_append sep a rest :
  rsplit_last sep rest = None ->
  rsplit_last sep (a +++ String sep rest) = Some (a, rest).
Proof.
  intros Hr. induction a as [| c a IH]; cbn [String.append rsplit_last].
  - now rewrite Hr, Ascii.eqb_refl.
  - now rewrite IH.
Qed.

Lemma prefix_append p x : String.prefix p (p +++ x) = true.
Proof. apply prefix_iff. now exists x. Qed.

Lemma drop_append p x : drop (String.length p) (p +++ x) = x.
Proof. induction p as [| c p IH]; [reflexivity | exact IH]. Qed.

Lemma substring_append a x : String.substring 0 (String.length a) (a +++ x) = a.
Proof.
  induction a as [| c a IH]; cbn [String.length String.append String.substring].
  - now destruct x.
  - now rewrite IH.
Qed.

Lemma append_empty a : a +++ "" = a.
Proof. induction a as [| c a IH]; cbn [String.append]; [reflexivity | now rewrite IH]. Qed.

Lemma removeprefix_append p x : removeprefix p (p +++ x) = x.
Proof. unfold removeprefix. now rewrite prefix_append, drop_append. Qed.

Lemma removesuffix_append a x : removesuffix x (a +++ x) = a.
Proof.
  unfold removesuffix, endswith. destruct (String.eqb_spec x "") as [-> | Hx]; cbn [negb andb].
  - apply append_empty.
  - rewrite length_append.
    replace (String.length a + String.length x - String.length x)%nat
      with (String.length a) by lia.
    rewrite drop_append, String.eqb_refl, substring_append.
    now replace (String.length x <=? String.length a + String.length x)%nat
      with true by (symmetry; apply Nat.leb_le; lia).
Qed.

(** A string of digits does not end in [.zip]. *)
Lemma removesuffix_digits s :
  all_chars is_digit s = true -> removesuffix ".zip" s = s.
Proof.
  intros Hd. unfold removesuffix, endswith.
  destruct (String.eqb_spec
              (drop (String.length s - String.length ".zip") s) ".zip") as [Heq | Hne].
  - exfalso. pose proof (all_chars_drop is_digit s
                           (String.length s - String.length ".zip") Hd) as H.
    rewrite Heq in H. discriminate.
  - now rewrite andb_false_r.
Qed.

Lemma digits_value_acc d : forall p,
  digits_value (Z.pos p) (list_ascii_of_string (NilEmpty.string_of_uint d))
  = Some (Z.pos (Pos.of_uint_acc d p)).
Proof.
  induction d as [| d IH | d IH | d IH | d IH | d IH | d IH | d IH | d IH | d IH | d IH];
    intros p;
    cbn [NilEmpty.string_of_uint list_ascii_of_string digits_value Pos.of_uint_acc];
    [reflexivity | ..];
    eval_digit; cbv iota beta;
    rewrite <- IH; f_equal; lia.
Qed.

Lemma digits_value_zero d :
  digits_value 0 (list_ascii_of_string (NilEmpty.string_of_uint d))
  = Some (Z.of_N (Pos.of_uint d)).
Proof.
  induction d as [| d IH | d IH | d IH | d IH | d IH | d IH | d IH | d IH | d IH | d IH];
    cbn [NilEmpty.string_of_uint list_ascii_of_string digits_value Pos.of_uint];
    [reflexivity | ..];
    eval_digit; cbv iota beta; cbn [Z.mul Z.add];
    [exact IH | apply digits_value_acc ..].
Qed.

Lemma digits_of_uint d : all_chars is_digit (NilEmpty.string_of_uint d) = true.
Proof.
  induction d; cbn [NilEmpty.string_of_uint all_chars]; [reflexivity | ..];
    rewrite IHd; reflexivity.
Qed.

(** The decimal digits of the number that [str] prints. *)
Lemma py_str_digits n :
  0 <= n ->
  exists d, d <> Decimal.Nil
            /\ py_str n = NilEmpty.string_of_uint d
            /\ Z.of_N (Pos.of_uint d) = n.
Proof.
  intros Hn. unfold py_str. pose proof (DecimalZ.of_to n) as Hof.
  destruct (to_int_proper n) as [Hnil _].
  destruct (Z.to_int n) as [d | d] eqn:E.
  - exists d. assert (d <> Decimal.Nil) as Hd by (intros ->; now apply Hnil).
    split; [exact Hd |]. split; [now destruct d | exact Hof].
  - exfalso. destruct n as [| p | p]; cbn in E; try discriminate. lia.
Qed.

Lemma digit_not_space c : is_digit c = true -> is_space c = false.
Proof.
  unfold is_digit, digit_of, is_space. set (n := nat_of_ascii c).
  destruct (Nat.leb_spec 48 n), (Nat.leb_spec n 57); cbn [andb]; try discriminate.
  intros _.
  destruct (Nat.leb_spec 9 n), (Nat.leb_spec n 13), (Nat.leb_spec 28 n),
    (Nat.leb_spec n 32); cbn; try reflexivity; lia.
Qed.

Lemma all_chars_Forall p s :
  all_chars p s = true -> Forall (fun c => p c = true) (list_ascii_of_string s).
Proof.
  induction s as [| c s IH]; cbn [all_chars list_ascii_of_string]; [constructor |].
  intros H. apply andb_prop in H as [Hc Hs]. constructor; [exact Hc | now apply IH].
Qed.

Lemma lstrip_digits l :
  Forall (fun c => is_digit c = true) l -> lstrip l = l.
Proof.
  intros [| c l' Hc _]; cbn [lstrip]; [reflexivity |].
  now rewrite (digit_not_space c Hc).
Qed.

Lemma digit_no_sign c l :
  is_digit c = true ->
  match c :: l with
  | "+"%char :: l' => unsigned_value l'
  | "-"%char :: l' => option_map Z.opp (unsigned_value l')
  | l0 => unsigned_value l0
  end = digits_value 0 (c :: l).
Proof.
  destruct c as [[] [] [] [] [] [] [] []]; intros H; try discriminate H; reflexivity.
Qed.

Lemma py_int_digits s :
  s <> "" ->
  all_chars is_digit s = true ->
  py_int s = digits_value 0 (list_ascii_of_string s).
Proof.
  intros Hs Hd. apply all_chars_Forall in Hd. unfold py_int, strip.
  rewrite (lstrip_digits _ Hd), (lstrip_digits _ (Forall_rev Hd)), rev_involutive.
  destruct s as [| c s]; [congruence |]. cbn [list_ascii_of_string] in *.
  apply digit_no_sign. now inversion Hd.
Qed.

Lemma py_int_py_str n : 0 <= n -> py_int (py_str n) = Some n.
Proof.
  intros Hn. destruct (py_str_digits n Hn) as (d & Hd & -> & <-).
  rewrite py_int_digits; [apply digits_value_zero | | apply digits_of_uint].
  now destruct d.
Qed.

Lemma sequence_number_roundtrip save n ext :
  0 <= n ->
  is_extension ext = true ->
  sequence_number (backup_name save n ext) = Some n.
Proof.
  intros Hn Hext. destruct (py_str_digits n Hn) as (d & Hd & Hstr & Hval).
  pose proof (digits_of_uint d) as Hdig. rewrite <- Hstr in Hdig.
  assert (all_chars (fun c => negb (Ascii.eqb c SUFFIX_SEPARATOR))
            (SUFFIX_BEGIN +++ py_str n +++ ext) = true) as Hclean.
  { rewrite !all_chars_append.
    rewrite (all_chars_impl is_digit _ (py_str n)); [| | exact Hdig].
    - unfold is_extension in Hext. apply orb_prop in Hext as [He | He];
        apply String.eqb_eq in He; subst ext; reflexivity.
    - intros c Hc. destruct c as [[] [] [] [] [] [] [] []]; try discriminate Hc; reflexivity. }
  unfold sequence_number, rpartition, backup_name.
  cbn [String.append].
  rewrite (rsplit_last_append SUFFIX_SEPARATOR save _ (rsplit_last_none _ _ Hclean)).
  rewrite removeprefix_append.
  assert (removesuffix ".zip" (py_str n +++ ext) = py_str n) as ->.
  { unfold is_extension in Hext. apply orb_prop in Hext as [He | He];
      apply String.eqb_eq in He; subst ext.
    - rewrite append_empty. now apply removesuffix_digits.
    - apply removesuffix_append. }
  now apply py_int_py_str.
Qed.


(* ================================================================= *)
(** ** The initial scan: failure, and the first name *)

(** The scan does not read the world: it goes through the names it was
    given, and stops at the first backup whose name does not parse. *)
Lemma for_each_count_run save w : forall l acc,
  for_each l (count_backup save) acc w
  = if forallb parses (filter (belongs save) l)
    then (Done (fst (fold_left
                       (fun a n =>
                          match sequence_number n with
                          | Some v => (if v >=? fst a then v + 1 else fst a, snd a + 1)
                          | None => a
                          end) (filter (belongs save) l) acc),
                snd acc + Z.of_nat (List.length (filter (belongs save) l))), w)
    else (Raised ValueError, w).
Proof.
  induction l as [| n l IH]; intros [backup_num total_num].
  - cbn. unfold ret. do 2 f_equal. cbn. f_equal. lia.
  - cbn [for_each filter]. unfold bind. unfold count_backup at 1.
    destruct (belongs save n) eqn:Hb.
    + cbn [forallb fold_left List.length]. unfold parses at 1.
      assert (Hseq : sequence_number n
                     = let '(_, _, after) := rpartition SUFFIX_SEPARATOR n in
                       py_int (removesuffix ".zip" (removeprefix SUFFIX_BEGIN after)))
        by reflexivity.
      destruct (rpartition SUFFIX_SEPARATOR n) as [[before sep] after].
      rewrite Hseq. destruct (py_int _) as [v |]; cbn [andb fst snd]; [| reflexivity].
      destruct (v >=? backup_num); unfold ret; rewrite IH; cbn [fst snd];
        destruct (forallb parses (filter (belongs save) l)); try reflexivity;
        do 3 f_equal; lia.
    + unfold ret. apply IH.
Qed.

Lemma initial_scan_run save es w :
  folder w = Some es ->
  initial_scan save w
  = if forallb parses (map e_name (backups_of save es))
    then (Done (fst (fold_left
                       (fun a n =>
                          match sequence_number n with
                          | Some v => (if v >=? fst a then v + 1 else fst a, snd a + 1)
                          | None => a
                          end) (map e_name (backups_of save es)) (0, 0)),
                Z.of_nat (List.length (backups_of save es))), w)
    else (Raised ValueError, w).
Proof.
  intros Hf. unfold initial_scan, bind, listdir_backups. rewrite Hf.
  rewrite for_each_count_run, filter_names. fold (backups_of save es).
  destruct (forallb parses _); [| reflexivity].
  now rewrite length_map.
Qed.



Lemma belongs_refl save : belongs save save = true.
Proof. apply py_in_iff. exists "", "". cbn. now rewrite append_empty. Qed.

Lemma belongs_backup_name save n ext : belongs save (backup_name save n ext) = true.
Proof. apply py_in_iff. exists "". eexists. cbn [String.append]. reflexivity. Qed.

(** Round trip.  A name the script gives a backup counts as a backup of its
    save, whatever the save is called, and the sequence number the initial
    scan reads off it is the number the name was made with. *)
Theorem backup_name_recognised save n ext :
  0 <= n ->
  is_extension ext = true ->
  belongs save (backup_name save n ext) = true
  /\ sequence_number (backup_name save n ext) = Some n.
Proof.
  intros Hn Hext. split; [apply belongs_backup_name |].
  now apply sequence_number_roundtrip.
Qed.

Lemma backup_name_recognised_witness :
  belongs "my_save" (backup_name "my_save" 12 ".zip") = true
  /\ sequence_number (backup_name "my_save" 12 ".zip") = Some 12.
Proof.
  apply (backup_name_recognised "my_save" 12 ".zip"); [lia | reflexivity].
Defined.

(** Backups in place.  When the backup folder is the playstyle directory
    itself (folder [.]), the save lies in it; the scan takes the save for one
    of its backups, and fails unless the save's own name parses as a backup
    name. *)
Theorem initial_scan_in_place save es w e :
  folder w = Some es ->
  In e es ->
  e_name e = save ->
  parses save = false ->
  initial_scan save w = (Raised ValueError, w).
Proof.
  intros Hf He Hname Hp. pose proof (initial_scan_run save es w Hf) as H.
  assert (forallb parses (map e_name (backups_of save es)) = false) as Hall.
  { destruct (forallb parses _) eqn:E; [| reflexivity].
    rewrite forallb_forall in E. rewrite <- Hp. symmetry. apply E.
    subst save. apply in_map. apply filter_In. split; [exact He |].
    apply belongs_refl. }
  now rewrite Hall in H.
Qed.

Lemma initial_scan_in_place_witness :
  initial_scan "alpha" (sample_world in_place_folder)
  = (Raised ValueError, sample_world in_place_folder).
Proof.
  apply (initial_scan_in_place "alpha" in_place_folder (sample_world in_place_folder)
           (new_entry "alpha" 100 (Dir [("map_0_0.bin", File)])));
    [reflexivity | left; reflexivity | reflexivity | reflexivity].
Defined.

Lemma scan_name_free save es w backup_num total_num w' ext :
  folder w = Some es ->
  initial_scan save w = (Done (backup_num, total_num), w') ->
  is_extension ext = true ->
  0 <= backup_num /\ artifact w (backup_name save backup_num ext) = None.
Proof.
  intros Hf H Hext. unfold initial_scan, bind, listdir_backups in H. rewrite Hf in H.
  destruct (for_each_count_numbers _ _ _ _ _ _ H) as (Hle & Hall & _).
  cbn [fst] in *. split; [exact Hle |].
  unfold artifact. rewrite Hf.
  destruct (lookup (backup_name save backup_num ext) es) as [e |] eqn:Hl; [| reflexivity].
  exfalso. apply lookup_name in Hl as [Hname He].
  destruct (Hall (backup_name save backup_num ext)) as (v & Hv & Hlt).
  - rewrite <- Hname. now apply in_map.
  - apply belongs_backup_name.
  - rewrite (sequence_number_roundtrip save backup_num ext Hle Hext) in Hv.
    injection Hv as <-. lia.
Qed.

Lemma free_number_free fuel save ext n w :
  is_backup_file w (backup_name save n ext) = false ->
  free_number fuel save ext n w = (Done n, w).
Proof.
  intros H. destruct fuel; cbn [free_number];
    rewrite (bind_done _ _ _ _ _ (isfile_backup_pure _ w)), H; reflexivity.
Qed.

(** At start the first name is free.  After a scan that succeeded, no entry
    of the folder, file or directory, bears the name made of the number the
    scan returned, so the naming loop keeps that number. *)
Theorem first_name_free save es w backup_num total_num w' ext :
  folder w = Some es ->
  initial_scan save w = (Done (backup_num, total_num), w') ->
  is_extension ext = true ->
  artifact w (backup_name save backup_num ext) = None
  /\ forall fuel, free_number fuel save ext backup_num w = (Done backup_num, w).
Proof.
  intros Hf H Hext.
  destruct (scan_name_free save es w backup_num total_num w' ext Hf H Hext) as [_ Hnone].
  split; [exact Hnone |]. intros fuel. apply free_number_free.
  unfold is_backup_file. now rewrite Hnone.
Qed.

Lemma first_name_free_witness :
  artifact (sample_world five_backups) (backup_name "alpha" 5 ".zip") = None
  /\ forall fuel,
       free_number fuel "alpha" ".zip" 5 (sample_world five_backups)
       = (Done 5, sample_world five_backups).
Proof.
  apply (first_name_free "alpha" five_backups (sample_world five_backups) 5 5
           (sample_world five_backups) ".zip"); reflexivity.
Defined.

Lemma suffix_extension_is_extension cfg : is_extension (suffix_extension cfg) = true.
Proof. unfold suffix_extension. now destruct (truthy_method (METHOD cfg)). Qed.

(** A successful archiving step on an existing folder appends one entry, of
    the given name, and leaves the other entries as they are. *)
Lemma archive_adds cfg name es w w' :
  folder w = Some es ->
  archive cfg name w = (Done tt, w') ->
  exists e, folder w' = Some (es ++ [e]) /\ e_name e = name.
Proof.
  intros Hf. unfold archive. destruct (truthy_method (METHOD cfg)).
  - unfold write_zip. rewrite Hf.
    destruct (lookup name es); [discriminate |].
    destruct (folder_readonly w); [discriminate |].
    intros [= <-]. eexists. split; reflexivity.
  - unfold try_except, copytree. rewrite Hf.
    destruct (save w) as [[t [| content]] |]; try discriminate.
    destruct (lookup name es); [discriminate |].
    destruct (folder_readonly w); [discriminate |].
    intros [= <-]. eexists. split; reflexivity.
Qed.

(** In step with the folder.  Without a limit, a cycle that starts from the
    number and count a scan of the folder gives and ends normally appends one
    entry, named with that number, and ends with the number and count a new
    scan of the folder gives. *)
Theorem cycle_keeps_scan fuel cfg target st es w st' w' :
  folder w = Some es ->
  initial_scan (latest_save target) w = (Done (backup_num st, total_num st), w) ->
  LIMIT cfg = 0 ->
  backup_cycle fuel cfg target st w = (Done st', w') ->
  exists e,
    folder w' = Some (es ++ [e])
    /\ e_name e = backup_name (latest_save target) (backup_num st) (suffix_extension cfg)
    /\ initial_scan (latest_save target) w'
       = (Done (backup_num st', total_num st'), w').
Proof.
  intros Hf Hscan Hl Hcycle.
  set (save := latest_save target) in *. set (ext := suffix_extension cfg) in *.
  destruct (scan_name_free save es w _ _ _ ext Hf Hscan
              (suffix_extension_is_extension cfg)) as [Hpos Hnone].
  destruct (backup_cycle_inv _ _ _ _ _ _ _ Hcycle)
    as (w1 & num & w2 & t & content & Hev & Hnum & Harch & -> & _ & ->).
  fold save ext in Hev, Hnum, Harch.
  unfold evict in Hev. rewrite Hl in Hev. cbn [Z.eqb] in Hev. injection Hev as <-.
  rewrite free_number_free in Hnum by (unfold is_backup_file; now rewrite Hnone).
  injection Hnum as <-.
  destruct (archive_adds cfg _ es _ w2 (Hf : folder (write_stdout _ w) = Some es) Harch)
    as (e & Hf2 & Hname).
  exists e. split; [exact Hf2 |]. split; [exact Hname |].
  unfold evicted. rewrite Hl. cbn [Z.eqb backup_num total_num].
  unfold initial_scan, bind, listdir_backups in Hscan |- *.
  cbn [folder write_stdout]. rewrite Hf in Hscan. rewrite Hf2.
  rewrite for_each_count_run in Hscan |- *.
  rewrite map_app, filter_app, forallb_app, fold_left_app, length_app.
  cbn [map filter]. rewrite Hname, (belongs_backup_name save (backup_num st) ext).
  cbn [forallb fold_left List.length]. unfold parses at 2.
  rewrite (sequence_number_roundtrip save (backup_num st) ext Hpos
             (suffix_extension_is_extension cfg)).
  destruct (forallb parses (filter (belongs save) (map e_name es))); [| discriminate].
  injection Hscan as Hnum Htot. cbn [andb fst snd]. rewrite Hnum.
  replace (backup_num st >=? backup_num st) with true
    by (symmetry; rewrite Z.geb_leb; apply Z.leb_refl).
  cbn [fst snd]. do 3 f_equal. lia.
Qed.

Lemma cycle_keeps_scan_witness :
  exists e,
    folder (snd first_cycle) = Some ([] ++ [e])
    /\ e_name e = backup_name (latest_save alpha_target) 0 (suffix_extension zip_cfg)
    /\ initial_scan (latest_save alpha_target) (snd first_cycle)
       = (Done (backup_num {| backup_num := 1; total_num := 1; last_mod := 100;
                              current_mod := 1 |},
                total_num {| backup_num := 1; total_num := 1; last_mod := 100;
                             current_mod := 1 |}), snd first_cycle).
Proof.
  apply (cycle_keeps_scan 5 zip_cfg alpha_target
           {| backup_num := 0; total_num := 0; last_mod := 0; current_mod := 1 |}
           [] (sample_world [])
           {| backup_num := 1; total_num := 1; last_mod := 100; current_mod := 1 |}
           (snd first_cycle));
    [reflexivity | reflexivity | reflexivity | vm_compute; reflexivity].
Defined.

(* ================================================================= *)
(** ** What a cycle leaves alone *)












(** Existing entries are not overwritten.  When the name chosen for the
    backup already names an entry of the folder, the archiving step ends in
    an exception and the world is as before: the archive is opened in
    exclusive mode and [copytree] wants a destination that does not exist. *)
Theorem archive_exclusive cfg name w e :
  artifact w name = Some e ->
  exists err, archive cfg name w = (Raised err, w).
Proof.
  unfold artifact, archive. destruct (folder w) as [es |] eqn:Hf; [| discriminate].
  intros Hl. destruct (truthy_method (METHOD cfg)).
  - exists FileExistsError. unfold write_zip. now rewrite Hf, Hl.
  - unfold try_except, copytree. rewrite Hf, Hl.
    destruct (save w) as [[t [| content]] |]; cbn [exn_eqb]; eauto.
Qed.

Lemma archive_exclusive_witness :
  exists err,
    archive (sample_cfg None 0) "alpha_bak0" (sample_world copied_backup)
    = (Raised err, sample_world copied_backup).
Proof.
  apply (archive_exclusive (sample_cfg None 0) "alpha_bak0"
           (sample_world copied_backup)
           (new_entry "alpha_bak0" 100 (Dir [("map_0_0.bin", File)]))).
  reflexivity.
Defined.

(* ================================================================= *)
(** ** What eviction leaves alone *)

Lemma all_named_unlink name es : all_named es = true -> all_named (unlink name es) = true.
Proof.
  unfold all_named, unlink. rewrite !forallb_forall. intros H e He.
  apply filter_In in He as [He _]. now apply H.
Qed.

Lemma all_named_lookup es : all_named es = true -> lookup "" es = None.
Proof.
  unfold all_named, lookup. intros H.
  destruct (find _ es) as [e |] eqn:E; [| reflexivity].
  apply find_some in E as [He Hn]. rewrite forallb_forall in H.
  specialize (H e He). now rewrite Hn in H.
Qed.

(** What deleting does to the folder: nothing, or it unlinks the name, or,
    asked for the empty name on an empty folder, it removes the folder. *)
Lemma delete_backup_folder name es w :
  folder w = Some es ->
  folder (snd (delete_backup name w)) = Some es
  \/ (folder (snd (delete_backup name w)) = Some (unlink name es)
      /\ lookup name es <> None)
  \/ (lookup name es = None /\ es = []
      /\ folder (snd (delete_backup name w)) = None).
Proof.
  intros Hf.
  unfold delete_backup, try_except, bind, isfile_backup, remove_backup,
    rmdir_backup, say, print.
  repeat (destruct_scrutinee; cbn [exn_eqb]);
    repeat match goal with
           | H : Some _ = Some _ |- _ => injection H as H; subst
           end;
    cbn [snd folder set_folder write_stdout];
    repeat match goal with
           | H : folder _ = _ |- _ => rewrite H
           end;
    first [ left; reflexivity
          | right; left; split; [reflexivity | congruence]
          | right; right; repeat split; congruence
          | exfalso; cbn in *; congruence ].
Qed.

Lemma evict_once_world save total_num w name t :
  find_earliest save w = (Done (name, t), w) ->
  snd (evict_once save total_num w)
  = snd (delete_backup name (write_stdout (LIMIT_REACHED name) w)).
Proof.
  intros Hr. unfold evict_once.
  rewrite (bind_done _ _ _ _ _ Hr), (bind_done _ _ _ _ _ (say_done _ w)).
  unfold bind. now destruct (delete_backup _ _) as [[[] | e |] w'].
Qed.

Lemma evict_once_spares save es total_num w :
  spares save es w -> spares save es (snd (evict_once save total_num w)).
Proof.
  unfold spares at 1. destruct (folder w) as [now |] eqn:Hf.
  - intros [Hnamed Hkept].
    destruct (find_earliest_total save now w Hf) as ([name t] & Hr & Hor).
    rewrite (evict_once_world save total_num w name t Hr).
    destruct (delete_backup_folder name now (write_stdout (LIMIT_REACHED name) w) Hf)
      as [Hsame | [[Hgone Hfound] | (Hnone & Hempty & Hgone)]];
      unfold spares; rewrite ?Hsame, ?Hgone.
    + now split.
    + destruct Hor as [[= -> ->] | [_ Hb]]; cbn [fst] in *.
      { exfalso. apply Hfound. now apply all_named_lookup. }
      split; [now apply all_named_unlink |].
      intros e He Hbe. apply filter_In. split; [now apply Hkept |].
      apply negb_true_iff, String.eqb_neq. intros Heq. rewrite Heq in Hbe. congruence.
    + intros e He. destruct (belongs save (e_name e)) eqn:Hbe; [reflexivity |].
      exfalso. specialize (Hkept e He Hbe). now rewrite Hempty in Hkept.
  - intros Hall.
    assert (snd (evict_once save total_num w) = w) as ->
      by (unfold evict_once;
          erewrite bind_raised; [reflexivity |];
          unfold find_earliest, bind, listdir_backups; now rewrite Hf).
    unfold spares. now rewrite Hf.
Qed.

Lemma evict_loop_spares save es limit : forall fuel total_num w,
  spares save es w ->
  spares save es (snd (evict_loop fuel limit save total_num w)).
Proof.
  induction fuel as [| fuel IH]; intros total_num w Hw; cbn [evict_loop];
    destruct (total_num >=? limit); try exact Hw.
  pose proof (evict_once_spares save es total_num w Hw) as Hstep.
  unfold bind. destruct (evict_once save total_num w) as [[t | e |] w1];
    cbn [snd] in *; [now apply IH | assumption ..].
Qed.

(** Eviction deletes backups of the save only.  An entry of the folder whose
    name does not contain the save's name is still in the folder after the
    eviction phase, however the phase ends. *)
Theorem evict_spares fuel cfg save es w total_num e :
  folder w = Some es ->
  all_named es = true ->
  In e es ->
  belongs save (e_name e) = false ->
  exists now,
    folder (snd (evict fuel cfg save total_num w)) = Some now /\ In e now.
Proof.
  intros Hf Hnamed He Hb.
  assert (spares save es (snd (evict fuel cfg save total_num w))) as H.
  { unfold evict. destruct (LIMIT cfg =? 0); [unfold ret; cbn [snd] | apply evict_loop_spares];
      unfold spares; rewrite Hf; now split. }
  unfold spares in H. destruct (folder (snd _)) as [now |].
  - exists now. split; [reflexivity |]. now apply H.
  - specialize (H e He). congruence.
Qed.

Lemma evict_spares_witness :
  exists now,
    folder (snd (evict 5 (sample_cfg (Some ZIP_DEFLATED) 1) "alpha" 2
                   (sample_world shared_folder)))
    = Some now
    /\ In (new_entry "beta_bak0.zip" 20 File) now.
Proof.
  apply (evict_spares 5 (sample_cfg (Some ZIP_DEFLATED) 1) "alpha" shared_folder
           (sample_world shared_folder) 2 (new_entry "beta_bak0.zip" 20 File));
    [reflexivity | reflexivity | right; right; left; reflexivity | reflexivity].
Defined.

Example evict_shared_folder :
  option_map (map e_name)
    (folder (snd (evict 5 (sample_cfg (Some ZIP_DEFLATED) 1) "alpha" 2
                    (sample_world shared_folder))))
  = Some ["notes.txt"; "beta_bak0.zip"].
Proof. vm_compute. reflexivity. Qed.

(* ================================================================= *)
(** ** What a successful save location returns *)

Lemma for_each_playstyles_done cfg ps : forall best out r out',
  for_each ps (consider_playstyle cfg) best out = (Done r, out') ->
  all_listable ps = true.
Proof.
  induction ps as [| [p d] ps IH]; intros best out r out' H; [reflexivity |].
  cbn [for_each] in H. apply bind_inv in H as (b & o & Hstep & Hrest).
  change (all_listable ((p, d) :: ps)) with (is_listed d && all_listable ps).
  rewrite (IH _ _ _ _ Hrest), andb_true_r.
  unfold consider_playstyle, bind in Hstep. now destruct d.
Qed.

(** The save that save location returns is a child of a playstyle of the
    root, with its time stamp; the time stamp is above zero, and the name is
    neither empty nor the name of the backup folder.  Nothing is printed. *)
Theorem locate_save_sound cfg root out best out' :
  locate_save cfg root out = (Done best, out') ->
  out' = out
  /\ latest_save best <> ""
  /\ latest_save best <> FOLDER_NAME cfg
  /\ 0 < latest_modified best
  /\ exists ps cs,
       root = Listed ps
       /\ In (latest_playstyle best, Listed cs) ps
       /\ In (latest_save best, latest_modified best) cs.
Proof.
  intros H. destruct root as [ps | | |];
    try (unfold locate_save, try_except, bind in H; cbn in H; discriminate).
  assert (all_listable ps = true) as Hl.
  { unfold locate_save, try_except, bind in H. cbn [os_listdir] in H.
    unfold ret at 1 in H. destruct ps as [| first rest]; [discriminate |].
    destruct (for_each _ _ _ out) as [[b | e |] o] eqn:E; try discriminate.
    now apply for_each_playstyles_done in E. }
  rewrite (locate_save_listed cfg ps out Hl) in H.
  destruct ps as [| first rest]; [discriminate |]. cbv zeta in H.
  set (init := {| latest_playstyle := fst first; latest_save := "";
                  latest_modified := 0 |}) in H.
  set (b := fold_left pick (candidates cfg (first :: rest)) init) in H.
  destruct (String.eqb_spec (latest_save b) "") as [Hempty | Hne]; [discriminate |].
  injection H as <- <-.
  destruct (fold_pick_spec (candidates cfg (first :: rest)) init)
    as [[Heq _] | (l1 & c & l2 & Hsplit & Hc & Hlt & _)].
  { exfalso. apply Hne. unfold b. now rewrite Heq. }
  change (b = chosen c) in Hc. clearbody b. subst b.
  cbn [chosen latest_save latest_modified latest_playstyle] in *.
  assert (In c (candidates cfg (first :: rest))) as Hin
    by (rewrite Hsplit; apply in_or_app; right; now left).
  apply in_flat_map in Hin as ([p d] & Hp & Hin). cbn [fst snd] in Hin.
  apply in_map_iff in Hin as ([name t] & <- & Hin).
  apply filter_In in Hin as [Hin Hel]. unfold cand_name, cand_mtime in *. cbn [fst snd] in *.
  split; [reflexivity |]. split; [exact Hne |]. split.
  { unfold eligible in Hel. cbn [fst] in Hel. apply negb_true_iff in Hel.
    now apply String.eqb_neq. }
  split; [exact Hlt |].
  exists (first :: rest). destruct d as [cs | | |]; try contradiction.
  exists cs. split; [reflexivity |]. split; assumption.
Qed.

Lemma locate_save_sound_witness :
  [] = (@nil string)
  /\ latest_save (chosen ("Survival", ("beta", 300))) <> ""
  /\ latest_save (chosen ("Survival", ("beta", 300))) <> FOLDER_NAME zip_cfg
  /\ 0 < latest_modified (chosen ("Survival", ("beta", 300)))
  /\ exists ps cs,
       Listed two_playstyles = Listed ps
       /\ In (latest_playstyle (chosen ("Survival", ("beta", 300))), Listed cs) ps
       /\ In (latest_save (chosen ("Survival", ("beta", 300))),
              latest_modified (chosen ("Survival", ("beta", 300)))) cs.
Proof.
  apply (locate_save_sound zip_cfg (Listed two_playstyles) []
           (chosen ("Survival", ("beta", 300))) []).
  reflexivity.
Defined.

(* ================================================================= *)
(** ** Which backup eviction selects *)

Lemma fold_earlier_first l : forall acc,
  snd acc <> 0 ->
  (forall x, In x l -> e_mtime x <> 0) ->
  (fold_left earlier l acc = acc /\ forall x, In x l -> snd acc <= e_mtime x)
  \/ exists l1 m l2,
       l = l1 ++ m :: l2
       /\ fold_left earlier l acc = (e_name m, e_mtime m)
       /\ e_mtime m < snd acc
       /\ (forall x, In x l1 -> e_mtime m < e_mtime x)
       /\ (forall x, In x l2 -> e_mtime m <= e_mtime x).
Proof.
  induction l as [| e l IH]; intros acc Hacc Hnz.
  - left. split; [reflexivity | intros x []].
  - assert (e_mtime e <> 0) as He by (apply Hnz; now left).
    assert (forall x, In x l -> e_mtime x <> 0) as Hnz' by (intros x Hx; apply Hnz; now right).
    cbn [fold_left].
    assert (Hp : earlier acc e
                 = if (snd acc =? 0) || (e_mtime e <? snd acc)
                   then (e_name e, e_mtime e) else acc) by reflexivity.
    apply Z.eqb_neq in Hacc as Hacc'. rewrite Hacc' in Hp. cbn [orb] in Hp.
    destruct (Z.ltb_spec (e_mtime e) (snd acc)) as [Hlt | Hge]; rewrite Hp; clear Hp.
    + right. destruct (IH (e_name e, e_mtime e) He Hnz')
        as [[Heq Hall] | (l1 & m & l2 & -> & Hf & Hlt' & H1 & H2)]; cbn [snd] in *.
      * exists [], e, l. split; [reflexivity |]. split; [exact Heq |].
        split; [exact Hlt |]. split; [intros x [] | exact Hall].
      * exists (e :: l1), m, l2. split; [reflexivity |]. split; [exact Hf |].
        split; [lia |]. split; [| exact H2].
        intros x [<- | Hx]; [exact Hlt' | now apply H1].
    + destruct (IH acc Hacc Hnz') as [[Heq Hall] | (l1 & m & l2 & -> & Hf & Hlt' & H1 & H2)].
      * left. split; [exact Heq |]. intros x [<- | Hx]; [lia | now apply Hall].
      * right. exists (e :: l1), m, l2. split; [reflexivity |]. split; [exact Hf |].
        split; [exact Hlt' |]. split; [| exact H2].
        intros x [<- | Hx]; [lia | now apply H1].
Qed.

(** The scan of eviction selects the oldest backup of the save, and of
    several backups of the same, least age the one listed first: the backups
    listed before the selected one are strictly younger, those after it are
    not older.  This needs that no backup is stamped [0] and that the folder,
    as a directory does, lists no name twice. *)
Theorem find_earliest_oldest save es w :
  folder w = Some es ->
  distinctb String.eqb (map e_name es) = true ->
  forallb (fun e => negb (e_mtime e =? 0)) (backups_of save es) = true ->
  backups_of save es <> [] ->
  exists l1 m l2,
    backups_of save es = l1 ++ m :: l2
    /\ find_earliest save w = (Done (e_name m, e_mtime m), w)
    /\ (forall x, In x l1 -> e_mtime m < e_mtime x)
    /\ (forall x, In x l2 -> e_mtime m <= e_mtime x).
Proof.
  intros Hf Hnd Hnz Hne.
  apply (distinctb_NoDup String.eqb) in Hnd; [| apply String.eqb_eq].
  rewrite (find_earliest_pure save es w Hf Hnd). unfold earliest_of.
  assert (forall x, In x (backups_of save es) -> e_mtime x <> 0) as Hnz'.
  { intros x Hx. rewrite forallb_forall in Hnz. specialize (Hnz x Hx).
    apply negb_true_iff in Hnz. now apply Z.eqb_neq. }
  destruct (backups_of save es) as [| e l]; [congruence |].
  cbn [fold_left]. unfold earlier at 2. cbn [snd Z.eqb orb].
  assert (e_mtime e <> 0) as He by (apply Hnz'; now left).
  destruct (fold_earlier_first l (e_name e, e_mtime e) He)
    as [[Heq Hall] | (l1 & m & l2 & -> & Hfold & Hlt & H1 & H2)]; cbn [snd] in *.
  - intros x Hx. apply Hnz'. now right.
  - exists [], e, l. split; [reflexivity |]. rewrite Heq.
    split; [reflexivity |]. split; [intros x [] | exact Hall].
  - exists (e :: l1), m, l2. split; [reflexivity |]. rewrite Hfold.
    split; [reflexivity |]. split; [| exact H2].
    intros x [<- | Hx]; [exact Hlt | now apply H1].
Qed.

Lemma find_earliest_oldest_witness :
  exists l1 m l2,
    backups_of "alpha" twin_backups = l1 ++ m :: l2
    /\ find_earliest "alpha" (sample_world twin_backups)
       = (Done (e_name m, e_mtime m), sample_world twin_backups)
    /\ (forall x, In x l1 -> e_mtime m < e_mtime x)
    /\ (forall x, In x l2 -> e_mtime m <= e_mtime x).
Proof.
  apply (find_earliest_oldest "alpha" twin_backups (sample_world twin_backups));
    [reflexivity | reflexivity | reflexivity | discriminate].
Defined.

(** Of the twins stamped 10 the one listed first is selected; a backup
    stamped [0] met first is given up for the next one, whatever its age. *)
Example find_earliest_examples :
  fst (find_earliest "alpha" (sample_world twin_backups))
  = Done ("alpha_bak1.zip", 10)
  /\ fst (find_earliest "alpha"
            (sample_world [new_entry "alpha_bak0.zip" 0 File;
                           new_entry "alpha_bak1.zip" 50 File]))
     = Done ("alpha_bak1.zip", 50).
Proof. split; vm_compute; reflexivity. Qed.

(* ================================================================= *)
(** ** How the loop ends *)

Lemma backup_loop_unchanged fuel cfg target events st w :
  current_mod st = last_mod st ->
  backup_loop fuel cfg target events st w = (Done st, w).
Proof.
  intros H. destruct events; cbn [backup_loop]; rewrite H, Z.eqb_refl; reflexivity.
Qed.

Lemma recheck_done w t w' :
  recheck w = (Done t, w') -> w' = w /\ exists content, save w = Some (t, content).
Proof.
  unfold recheck, try_except, getmtime_save.
  destruct (save w) as [[t' content] |]; [| discriminate].
  intros [= <- <-]. split; [reflexivity | now exists content].
Qed.

Lemma backup_loop_ends fuel cfg target : forall events st w st' w',
  backup_loop fuel cfg target events st w = (Done st', w') ->
  current_mod st <> last_mod st ->
  current_mod st' = last_mod st'
  /\ exists content, save w' = Some (last_mod st', content).
Proof.
  induction events as [| ev events IH]; intros st w st' w' H Hne;
    cbn [backup_loop] in H; apply Z.eqb_neq in Hne as Hc; rewrite Hc in H;
    apply bind_inv in H as (st1 & w1 & _ & H);
    apply bind_inv in H as ([] & w2 & _ & H); [discriminate |].
  apply bind_inv in H as ([] & w3 & _ & H).
  apply bind_inv in H as (t & w4 & Hre & H).
  apply recheck_done in Hre as (-> & content & Hs).
  destruct (Z.eq_dec t (last_mod st1)) as [-> | Hdiff].
  - rewrite backup_loop_unchanged in H by reflexivity. injection H as <- <-.
    cbn [current_mod last_mod]. split; [reflexivity | now exists content].
  - now apply IH in H.
Qed.

(** A run that ends normally has seen the save unchanged: the time stamp the
    save bears in the end is the one read right after the last backup was
    made, and the last line printed says so. *)
Theorem zombisave_ends_unchanged fuel cfg root events w st' w' :
  zombisave fuel cfg root events w = (Done st', w') ->
  current_mod st' = last_mod st'
  /\ (exists content, save w' = Some (last_mod st', content))
  /\ exists out, stdout w' = out ++ [UNCHANGED].
Proof.
  unfold zombisave. intros H.
  apply bind_inv in H as (target & w1 & _ & H).
  apply bind_inv in H as ([] & w2 & _ & H).
  apply bind_inv in H as (st & w3 & Hinit & H).
  apply bind_inv in H as (st1 & w4 & Hloop & H).
  apply bind_inv in H as ([] & w5 & Hsay & H). injection H as <- <-.
  injection Hsay as <-.
  unfold initial_rotation in Hinit.
  apply bind_inv in Hinit as ([n t] & w3' & _ & Hinit). injection Hinit as <- <-.
  destruct (backup_loop_ends _ _ _ _ _ _ _ _ Hloop) as (Heq & content & Hs).
  { cbn. discriminate. }
  split; [exact Heq |]. split; [now exists content |].
  now exists (stdout w4).
Qed.

Lemma zombisave_ends_unchanged_witness :
  current_mod {| backup_num := 2; total_num := 2; last_mod := 200; current_mod := 200 |}
  = last_mod {| backup_num := 2; total_num := 2; last_mod := 200; current_mod := 200 |}
  /\ (exists content,
        save (snd (zombisave 5 zip_cfg sample_root
                     [Wake (touch_save 200); Wake (fun w => w)] fresh_world))
        = Some (last_mod {| backup_num := 2; total_num := 2; last_mod := 200;
                            current_mod := 200 |}, content))
  /\ exists out,
       stdout (snd (zombisave 5 zip_cfg sample_root
                      [Wake (touch_save 200); Wake (fun w => w)] fresh_world))
       = out ++ [UNCHANGED].
Proof.
  apply (zombisave_ends_unchanged 5 zip_cfg sample_root
           [Wake (touch_save 200); Wake (fun w => w)] fresh_world
           {| backup_num := 2; total_num := 2; last_mod := 200; current_mod := 200 |}
           (snd (zombisave 5 zip_cfg sample_root
                   [Wake (touch_save 200); Wake (fun w => w)] fresh_world))).
  vm_compute. reflexivity.
Defined.




Example run_save_vanishes :
  fst (zombisave 5 zip_cfg sample_root [Wake save_vanishes] fresh_world)
  = Raised (SystemExit 1)
  /\ fst (zombisave 5 zip_cfg sample_root [Interrupt] fresh_world)
     = Raised (SystemExit 0)
  /\ option_map (map e_name)
       (folder (snd (zombisave 5 zip_cfg sample_root [Interrupt] fresh_world)))
     = Some ["alpha_bak0.zip"].
Proof. repeat split; vm_compute; reflexivity. Qed.

(* ================================================================= *)
(** ** The limit holds *)

Lemma backups_of_snoc save es e :
  belongs save (e_name e) = true ->
  backups_of save (es ++ [e]) = backups_of save es ++ [e].
Proof.
  intros H. unfold backups_of. rewrite filter_app. cbn [filter]. now rewrite H.
Qed.

(** The limit holds.  With a limit of at least 1, on a tidy folder whose
    backups of the save are as many as the count says, a cycle that ends
    normally has removed the oldest backups that were in excess, appended the
    new one, and leaves a count that is again the number of backups of the
    save in the folder and is at most the limit. *)
Theorem cycle_within_limit fuel cfg target st es w st' w' :
  folder w = Some es ->
  tidy (latest_save target) es = true ->
  1 <= LIMIT cfg ->
  total_num st = Z.of_nat (List.length (backups_of (latest_save target) es)) ->
  (rounds (LIMIT cfg) (total_num st) <= fuel)%nat ->
  backup_cycle fuel cfg target st w = (Done st', w') ->
  exists e es',
    es' = survivors (rounds (LIMIT cfg) (total_num st)) (latest_save target) es ++ [e]
    /\ folder w' = Some es'
    /\ e_name e
       = backup_name (latest_save target) (backup_num st' - 1) (suffix_extension cfg)
    /\ total_num st' = Z.of_nat (List.length (backups_of (latest_save target) es'))
    /\ total_num st' <= LIMIT cfg.
Proof.
  intros Hf Ht Hl Hcount Hfuel Hcycle.
  set (save := latest_save target) in *. set (k := rounds (LIMIT cfg) (total_num st)) in *.
  destruct (backup_cycle_inv _ _ _ _ _ _ _ Hcycle)
    as (w1 & num & w2 & t & content & Hev & _ & Harch & -> & _ & ->).
  fold save in Hev, Harch.
  unfold evict in Hev.
  assert ((LIMIT cfg =? 0) = false) as Hz by (apply Z.eqb_neq; lia).
  rewrite Hz in Hev.
  destruct (evict_loop_oldest save (LIMIT cfg) k fuel es w (total_num st) Hf Ht)
    as (w1' & Hrun & Hfw & Hlen & _).
  { unfold k, rounds. lia. }
  { exact Hfuel. }
  { unfold k, rounds. lia. }
  rewrite Hrun in Hev. injection Hev as Hn <-.
  assert (folder (write_stdout
                    (CREATING cfg (latest_playstyle target)
                       (backup_name save num (suffix_extension cfg))) w1')
          = Some (survivors k save es)) as Hfw1 by exact Hfw.
  destruct (archive_adds _ _ _ _ _ Hfw1 Harch) as (e & Hfw2 & He).
  exists e, (survivors k save es ++ [e]).
  split; [reflexivity |]. split; [exact Hfw2 |].
  cbn [backup_num total_num]. split; [rewrite He; do 2 f_equal; lia |].
  rewrite backups_of_snoc by (rewrite He; apply belongs_backup_name).
  rewrite length_app. cbn [List.length]. rewrite <- Hn.
  split; [lia |]. unfold k, rounds in *. lia.
Qed.


Lemma cycle_within_limit_witness :
  exists e es',
    es' = survivors (rounds 3 5) "alpha" five_backups ++ [e]
    /\ folder (snd (backup_cycle 5 (sample_cfg (Some ZIP_DEFLATED) 3) alpha_target
                      {| backup_num := 5; total_num := 5; last_mod := 0;
                         current_mod := 1 |}
                      (sample_world five_backups)))
       = Some es'
    /\ e_name e = backup_name "alpha" (6 - 1) ".zip"
    /\ 3 = Z.of_nat (List.length (backups_of "alpha" es'))
    /\ 3 <= 3.
Proof.
  apply (cycle_within_limit 5 (sample_cfg (Some ZIP_DEFLATED) 3) alpha_target
           {| backup_num := 5; total_num := 5; last_mod := 0; current_mod := 1 |}
           five_backups (sample_world five_backups)
           {| backup_num := 6; total_num := 3; last_mod := 100; current_mod := 1 |}
           (snd (backup_cycle 5 (sample_cfg (Some ZIP_DEFLATED) 3) alpha_target
                   {| backup_num := 5; total_num := 5; last_mod := 0;
                      current_mod := 1 |}
                   (sample_world five_backups))));
    try reflexivity; try (vm_compute; reflexivity); try (cbn; lia).
Defined.

(* ================================================================= *)
(** ** The arguments *)

(** Sanitising the arguments.  A negative limit ends the script with its
    message and status 1.  Otherwise the constants are made: the limit and
    the interval are the arguments', the folder is never ["."] (that name
    turns into the empty one, any other is kept), and the level is one the
    chosen method accepts: the argument's when that is valid or the method is
    not DEFLATED or BZIP2, the default after a warning otherwise.  Only
    DEFLATED, BZIP2 and LZMA give a method that counts as true. *)
Theorem configure_sound args out :
  (arg_number args < 0 ->
     fst (configure args out) = Raised (SystemExit 1)
     /\ exists pre, snd (configure args out) = pre ++ [LIMIT_ERROR])
  /\ (0 <= arg_number args ->
      exists cfg,
        fst (configure args out) = Done cfg
        /\ LIMIT cfg = arg_number args
        /\ INTERVAL cfg = arg_interval args
        /\ FOLDER_NAME cfg <> "."
        /\ (arg_folder args <> "." -> FOLDER_NAME cfg = arg_folder args)
        /\ (arg_folder args = "." -> FOLDER_NAME cfg = "")
        /\ invalid_level (arg_compression args) (LEVEL cfg) = false
        /\ (if invalid_level (arg_compression args) (arg_level args)
            then LEVEL cfg = LEVEL_DEFAULT
                 /\ snd (configure args out) = out ++ [LEVEL_WARNING]
            else LEVEL cfg = arg_level args /\ snd (configure args out) = out)
        /\ (truthy_method (METHOD cfg) = true
            <-> In (arg_compression args) [DEFLATED; BZIP2; LZMA])).
Proof.
  unfold configure, bind, print, ret, raise. split.
  - intros Hneg. apply Z.ltb_lt in Hneg.
    destruct (invalid_level (arg_compression args) (arg_level args));
      rewrite Hneg; cbn [fst snd]; (split; [reflexivity |]); eexists; reflexivity.
  - intros Hpos. apply Z.ltb_ge in Hpos.
    destruct (invalid_level (arg_compression args) (arg_level args)) eqn:Hinv;
      rewrite Hpos; cbn [fst snd]; eexists; (split; [reflexivity |]);
      cbn [LIMIT INTERVAL FOLDER_NAME LEVEL METHOD];
      (split; [reflexivity |]); (split; [reflexivity |]).
    all: split; [destruct (String.eqb_spec (arg_folder args) "."); [discriminate | assumption] |].
    all: split; [intros Hf; apply String.eqb_neq in Hf; now rewrite Hf |].
    all: split; [intros ->; reflexivity |].
    all: split; [| split; [split; reflexivity |]].
    all: try (destruct (arg_compression args); cbn; intuition (discriminate || auto); fail).
Qed.

Example configure_examples :
  configure rejected_arguments []
  = (Raised (SystemExit 1), [LEVEL_WARNING; LIMIT_ERROR]) /\
  configure (default_arguments {| has_zlib := false; has_bz2 := true; has_lzma := true |}) []
  = (Done {| FOLDER_NAME := "save_backups"; METHOD := Some 0; LEVEL := 5;
             INTERVAL := 30; LIMIT := 0 |}, []).
Proof. split; vm_compute; reflexivity. Qed.

(* ================================================================= *)
(** ** Leaving early *)

(** Leaving early.  When no save can be chosen, whatever the reason, the
    script ends as the search ended, and when the backup folder is missing
    and may not be created it ends with its message and status 1; in both
    cases before anything is scanned, deleted or written. *)
Theorem zombisave_early_exit fuel cfg root events w :
  (forall e,
     fst (locate_save cfg root (stdout w)) = Raised e ->
     fst (zombisave fuel cfg root events w) = Raised e
     /\ same_files w (snd (zombisave fuel cfg root events w))
     /\ stdout (snd (zombisave fuel cfg root events w))
        = snd (locate_save cfg root (stdout w)))
  /\ (forall target,
        fst (locate_save cfg root (stdout w)) = Done target ->
        folder w = None ->
        folder_pinned w = true ->
        fst (zombisave fuel cfg root events w) = Raised (SystemExit 1)
        /\ same_files w (snd (zombisave fuel cfg root events w))
        /\ stdout (snd (zombisave fuel cfg root events w))
           = snd (locate_save cfg root (stdout w)) ++ [MKDIR_DENIED]).
Proof.
  unfold zombisave, bind, lift_output, same_files. split.
  - intros e H. destruct (locate_save cfg root (stdout w)) as [r out].
    cbn [fst] in H. subst r. cbn. auto.
  - intros target H Hf Hp. destruct (locate_save cfg root (stdout w)) as [r out].
    cbn [fst] in H. subst r. cbn [snd]. unfold ensure_folder. cbn [folder folder_pinned].
    rewrite Hf, Hp. cbn. auto.
Qed.

Example early_exit_examples :
  zombisave 5 zip_cfg epoch_root [] fresh_world
  = (Raised (SystemExit 1), write_stdout NO_SAVES fresh_world) /\
  fst (zombisave 5 zip_cfg guarded_root [] fresh_world) = Raised PermissionError.
Proof. split; vm_compute; reflexivity. Qed.

(* ================================================================= *)
(** ** STORED *)

Lemma backup_cycle_same_engine fuel cfg cfg' target st w :
  same_engine cfg cfg' ->
  backup_cycle fuel cfg target st w = backup_cycle fuel cfg' target st w.
Proof.
  destruct cfg as [f m l i n], cfg' as [f' m' l' i' n'].
  unfold same_engine. cbn [FOLDER_NAME LIMIT INTERVAL METHOD].
  intros (<- & <- & <- & Ht).
  unfold backup_cycle, evict, suffix_extension, archive, CREATING.
  cbn [FOLDER_NAME LIMIT INTERVAL METHOD]. rewrite Ht. reflexivity.
Qed.

Lemma backup_loop_same_engine fuel cfg cfg' target :
  same_engine cfg cfg' ->
  forall events st w,
    backup_loop fuel cfg target events st w = backup_loop fuel cfg' target events st w.
Proof.
  intros Hs.
  assert (forall w, announce_sleep cfg w = announce_sleep cfg' w) as Hann.
  { intros w. unfold announce_sleep, SLEEPING. destruct Hs as (_ & _ & -> & _). reflexivity. }
  assert (forall ev w, sleep cfg ev w = sleep cfg' ev w) as Hsl.
  { intros ev w. unfold sleep, after_sleep. destruct Hs as (_ & _ & -> & _). reflexivity. }
  induction events as [| ev events IH]; intros st w; cbn [backup_loop];
    destruct (current_mod st =? last_mod st); try reflexivity;
    unfold bind; rewrite (backup_cycle_same_engine _ _ _ _ _ _ Hs);
    destruct (backup_cycle fuel cfg' target st w) as [[st1 | e |] w1]; try reflexivity;
    rewrite Hann; destruct (announce_sleep cfg' w1) as [[[] | e |] w2]; try reflexivity.
  rewrite Hsl. destruct (sleep cfg' ev w2) as [[[] | e |] w3]; try reflexivity.
  destruct (recheck w3) as [[t | e |] w4]; try reflexivity.
  apply IH.
Qed.

Lemma zombisave_same_engine fuel cfg cfg' root events w :
  same_engine cfg cfg' ->
  zombisave fuel cfg root events w = zombisave fuel cfg' root events w.
Proof.
  intros Hs.
  assert (forall out, locate_save cfg root out = locate_save cfg' root out) as Hloc.
  { intros out. destruct cfg as [f m l i n], cfg' as [f' m' l' i' n'].
    destruct Hs as (Hf & _). cbn [FOLDER_NAME] in Hf. subst f'. reflexivity. }
  unfold zombisave, bind, lift_output. rewrite Hloc.
  destruct (locate_save cfg' root (stdout w)) as [[target | e |] out]; try reflexivity.
  destruct (ensure_folder _) as [[[] | e |] w1]; try reflexivity.
  destruct (initial_rotation (latest_save target) w1) as [[st | e |] w2]; try reflexivity.
  now rewrite (backup_loop_same_engine _ _ _ _ Hs).
Qed.

(** STORED does not store.  The method STORED is the number 0, which counts
    as false where the script asks whether to zip: a run with STORED is, step
    for step, the run with NONE, with the same result, files and output. *)
Theorem stored_is_none fuel args root events w :
  arg_compression args = STORED ->
  main fuel args root events w
  = main fuel (with_compression NONE args) root events w.
Proof.
  intros Hc. unfold main, bind, lift_output, configure, print, ret, raise.
  unfold with_compression at 1 2 3 4.
  cbn [arg_folder arg_compression arg_level arg_interval arg_number].
  rewrite Hc. cbn [invalid_level].
  destruct (arg_number args <? 0); [reflexivity |].
  apply zombisave_same_engine. repeat split.
Qed.

Lemma stored_is_none_witness :
  main 5 stored_arguments sample_root [Wake (fun w => w)] fresh_world
  = main 5 (with_compression NONE stored_arguments) sample_root
      [Wake (fun w => w)] fresh_world.
Proof.
  apply (stored_is_none 5 stored_arguments sample_root [Wake (fun w => w)] fresh_world).
  reflexivity.
Defined.

Example stored_run :
  option_map (map (fun e => (e_name e, e_mtime e, e_node e)))
    (folder (snd (main 5 stored_arguments sample_root [Wake (fun w => w)] fresh_world)))
  = Some [("alpha_bak0", 100, Dir [("map_0_0.bin", File)])].
Proof. vm_compute. reflexivity. Qed.
